(** * Beam: post router, markdown rendering and editor text utilities

    A shallow embedding of [src/server/routers/post.ts] (the tRPC post
    router) and of the editor library ([markdownToHtml],
    [uploadImageCommandHandler], [getSuggestionData]), with the properties
    of the specification stated and proved over it. *)

From Stdlib Require Import Ascii String.
From Stdlib Require Import List ZArith NArith Lia Bool.
From Stdlib Require Import Sorting.Sorted Sorting.Permutation.
From Stdlib Require Import Numbers.DecimalString.
Import ListNotations.
Local Open Scope Z_scope.

(** ** JavaScript strings

    A JavaScript string is a sequence of UTF-16 code units.  The string
    methods the sources call are written out as ECMAScript defines them. *)
Module JS.

Definition code_unit := N.
Definition jsstring := list code_unit.

(** A string literal of the source (its characters are all below U+0100). *)
Definition lit (s : string) : jsstring :=
  map N_of_ascii (list_ascii_of_string s).

(** A character literal of the source. *)
Definition char (a : ascii) : code_unit := N_of_ascii a.

Definition str_eqb (a b : jsstring) : bool :=
  if list_eq_dec N.eq_dec a b then true else false.

(** The regular expression class [\s]: WhiteSpace and LineTerminator. *)
Definition is_whitespace (c : code_unit) : bool :=
  ((9 <=? c) && (c <=? 13) || (c =? 32) || (c =? 160) || (c =? 0x1680)
   || (0x2000 <=? c) && (c <=? 0x200a)
   || (c =? 0x2028) || (c =? 0x2029) || (c =? 0x202f) || (c =? 0x205f)
   || (c =? 0x3000) || (c =? 0xfeff))%N.

(** Clamping of a relative index, as [String.prototype.slice] does for both
    of its arguments. *)
Definition relative_index (len i : Z) : Z :=
  if i <? 0 then Z.max (len + i) 0 else Z.min i len.

(** [s.slice(start, end)]; [end_ = None] is the one-argument call. *)
Definition slice (s : jsstring) (start : Z) (end_ : option Z) : jsstring :=
  let len := Z.of_nat (length s) in
  let from := relative_index len start in
  let to := match end_ with
            | None => len
            | Some e => relative_index len e
            end in
  firstn (Z.to_nat (to - from)) (skipn (Z.to_nat from) s).

(** [s.split(re)] for a regular expression [re] that matches exactly the
    single code units satisfying [sep] (here [/\s/]): every separator ends a
    piece, and the empty string splits into one empty piece. *)
Fixpoint split (sep : code_unit -> bool) (s : jsstring) : list jsstring :=
  match s with
  | [] => [[]]
  | c :: r =>
      if sep c then [] :: split sep r
      else match split sep r with
           | t :: ts => (c :: t) :: ts
           | [] => [[c]]
           end
  end.

(** [s.endsWith(t)]. *)
Definition endsWith (s t : jsstring) : bool :=
  (length t <=? length s)%nat
  && str_eqb (skipn (length s - length t) s) t.

(** [s[i]]: the code unit at index [i], [None] for [undefined]. *)
Definition char_at (s : jsstring) (i : Z) : option code_unit :=
  if i <? 0 then None else nth_error s (Z.to_nat i).

(** [x === 'c'] for [x] a one-character string or [undefined]. *)
Definition is_char (x : option code_unit) (c : code_unit) : bool :=
  match x with
  | Some d => N.eqb d c
  | None => false
  end.

Fixpoint starts_with (s t : jsstring) {struct t} : bool :=
  match t, s with
  | [], _ => true
  | _ :: _, [] => false
  | c :: t', d :: s' => N.eqb c d && starts_with s' t'
  end.

(** [s.indexOf(pat)]: the least position at which [pat] occurs. *)
Fixpoint indexOf (pat s : jsstring) {struct s} : option nat :=
  if starts_with s pat then Some 0%nat
  else match s with
       | [] => None
       | _ :: r => option_map S (indexOf pat r)
       end.

Definition dollar : code_unit := char "$".

(** GetSubstitution for a string pattern (no captures, no named groups):
    [$$] is a dollar, [$&] the matched text, [$`] the text before the match,
    [$'] the text after it; every other dollar stands for itself. *)
Fixpoint getSubstitution (matched before after repl : jsstring) : jsstring :=
  match repl with
  | [] => []
  | c :: r =>
      if N.eqb c dollar then
        match r with
        | d :: r' =>
            if N.eqb d dollar then dollar :: getSubstitution matched before after r'
            else if N.eqb d (char "&") then matched ++ getSubstitution matched before after r'
            else if N.eqb d (char "`") then before ++ getSubstitution matched before after r'
            else if N.eqb d (char "'") then after ++ getSubstitution matched before after r'
            else dollar :: getSubstitution matched before after r
        | [] => [dollar]
        end
      else c :: getSubstitution matched before after r
  end.

(** [s.replace(pat, repl)] with a string pattern: the first occurrence of
    [pat] is replaced by the expansion of [repl]; no occurrence, no change. *)
Definition replace (s pat repl : jsstring) : jsstring :=
  match indexOf pat s with
  | None => s
  | Some i =>
      let before := firstn i s in
      let after := skipn (i + length pat) s in
      before ++ getSubstitution pat before after repl ++ after
  end.

(** [pre ++ pat ++ post] splits [s] at the first occurrence of [pat]. *)
Definition first_occurrence (pat s pre post : jsstring) : Prop :=
  s = pre ++ pat ++ post /\
  forall pre' post', s = pre' ++ pat ++ post' -> (length pre <= length pre')%nat.

Definition no_dollar (s : jsstring) : Prop := Forall (fun c => c <> dollar) s.

(** [String(n)] for an integer-valued number in the safe-integer range:
    its decimal notation. *)
Definition number_to_string (n : Z) : jsstring :=
  lit (NilZero.string_of_int (Z.to_int n)).

End JS.

(** ** The editor library: [markdownToHtml], [uploadImageCommandHandler],
    [getSuggestionData] *)
Module Editor.
Import JS.

(** The text area as the functions read it: its text and the caret offset
    ([selectionStart] is an unsigned offset into the text). *)
Record HTMLTextAreaElement := {
  value : jsstring;
  selectionStart : nat
}.

Inductive SuggestionType := mention | emoji.

Record SuggestionData := {
  keystrokeTriggered : bool;
  triggerIdx : Z;
  type : SuggestionType;
  query : jsstring
}.

Definition getSuggestionData (textareaEl : HTMLTextAreaElement) : SuggestionData :=
  let positionIndex := Z.of_nat (selectionStart textareaEl) in
  let textBeforeCaret := slice (value textareaEl) 0 (Some positionIndex) in
  let tokens := split is_whitespace textBeforeCaret in
  let lastToken := last tokens [] in
  let triggerIdx :=
    if endsWith textBeforeCaret lastToken
    then Z.of_nat (length textBeforeCaret) - Z.of_nat (length lastToken)
    else -1 in
  let maybeTrigger := char_at textBeforeCaret triggerIdx in
  let mentionKeystrokeTriggered := is_char maybeTrigger (char "@") in
  let emojiKeystrokeTriggered := is_char maybeTrigger (char ":") in
  let keystrokeTriggered :=
    mentionKeystrokeTriggered || emojiKeystrokeTriggered in
  let type := if mentionKeystrokeTriggered then mention else emoji in
  let query := slice textBeforeCaret (triggerIdx + 1) None in
  {| keystrokeTriggered := keystrokeTriggered;
     triggerIdx := triggerIdx;
     type := type;
     query := query |}.

(** The text area holding [s] with the caret at its end. *)
Definition caret_at_end (s : jsstring) : HTMLTextAreaElement :=
  {| value := s; selectionStart := length s |}.

(** *** Rendering *)

Record MarkedOptions := { breaks : bool }.

(** The two libraries [markdownToHtml] composes: [marked.parse] and
    [DOMPurify.sanitize]. *)
Class MarkdownLibs := {
  marked_parse : jsstring -> MarkedOptions -> jsstring;
  DOMPurify_sanitize : jsstring -> jsstring
}.

Definition markdownToHtml `{MarkdownLibs} (markdown : jsstring) : jsstring :=
  DOMPurify_sanitize (marked_parse markdown {| breaks := true |}).

(** *** Image upload *)

Record File := { name : jsstring }.

(** What the storage provider's [uploadImage] resolves to.  [width] and
    [dpi] are integer-valued numbers; [dpi] may be absent. *)
Record UploadedImage := {
  url : jsstring;
  width : Z;
  originalFilename : jsstring;
  dpi : option Z
}.

(** How the awaited part of one file's callback ends: [uploadImage]
    resolved, or something in the [try] block threw an error with this
    [message]. *)
Inductive UploadOutcome :=
| Uploaded (uploadedImage : UploadedImage)
| UploadFailed (message : jsstring).

(** The [Cursor] of textarea-markdown-editor, as far as the handler uses
    it: the number of the line the caret is on, and the text after
    [replaceLine lineNumber content]. *)
Class CursorLib := {
  position_line_lineNumber : HTMLTextAreaElement -> nat;
  replaceLine : nat -> jsstring -> jsstring -> jsstring
}.

(** What the handler acts on: the text of the text area, the toasts shown
    and the errors logged to the console. *)
Record EditorState := {
  text : jsstring;
  toasts : list jsstring;
  console : list jsstring
}.

Definition replacePlaceholder (placeholder replaceWith : jsstring)
    (st : EditorState) : EditorState :=
  {| text := replace (text st) placeholder replaceWith;
     toasts := toasts st;
     console := console st |}.

Definition dquote : code_unit := 34%N.

Definition placeholder_of (file : File) : jsstring :=
  lit "![Uploading " ++ name file ++ lit "...]()".

(** [Math.round(width / 2)] on an integer-valued [width]: halves round up. *)
Definition Math_round_half (width : Z) : Z := (width + 1) / 2.

Definition shown_width (uploadedImage : UploadedImage) : Z :=
  match dpi uploadedImage with
  | Some d =>
      if 144 <=? d then Math_round_half (width uploadedImage)
      else width uploadedImage
  | None => width uploadedImage
  end.

Definition img_tag (uploadedImage : UploadedImage) : jsstring :=
  lit "<img width=" ++ [dquote]
    ++ number_to_string (shown_width uploadedImage) ++ [dquote]
    ++ lit " alt=" ++ [dquote] ++ originalFilename uploadedImage ++ [dquote]
    ++ lit " src=" ++ [dquote] ++ url uploadedImage ++ [dquote] ++ lit ">".

(** One file's callback up to its first [await]. *)
Definition upload_started `{CursorLib} (lineNumber : nat) (file : File)
    (st : EditorState) : EditorState :=
  {| text := replaceLine lineNumber (placeholder_of file) (text st);
     toasts := toasts st;
     console := console st |}.

(** One file's callback after its awaits: the rest of the [try] block, or
    the [catch] block. *)
Definition upload_settled (file : File) (outcome : UploadOutcome)
    (st : EditorState) : EditorState :=
  match outcome with
  | Uploaded uploadedImage =>
      replacePlaceholder (placeholder_of file) (img_tag uploadedImage) st
  | UploadFailed message =>
      let st1 := {| text := text st;
                    toasts := toasts st;
                    console := console st ++ [message] |} in
      let st2 := replacePlaceholder (placeholder_of file) [] st1 in
      {| text := text st2;
         toasts := toasts st2 ++ [lit "Error uploading image: " ++ message];
         console := console st2 |}
  end.

(** [files.forEach(async ...)] runs every callback up to its first [await]
    in order; the callbacks then resume one at a time as their uploads
    settle.  [settlements] lists, in the order they happen, the index of the
    file whose upload settled and how. *)
Definition uploadImageCommandHandler `{CursorLib}
    (textareaEl : HTMLTextAreaElement) (files : list File)
    (settlements : list (nat * UploadOutcome)) : EditorState :=
  let currentLineNumber := position_line_lineNumber textareaEl in
  let st0 := {| text := value textareaEl; toasts := []; console := [] |} in
  let started :=
    fold_left (fun st file => upload_started currentLineNumber file st)
      files st0 in
  fold_left
    (fun st settlement =>
       match nth_error files (fst settlement) with
       | Some file => upload_settled file (snd settlement) st
       | None => st
       end)
    settlements started.

End Editor.

(** ** The post router ([src/server/routers/post.ts]) *)
Module PostRouter.
Import JS Editor.

(** *** Data model: the rows the router reads and writes

    Ids of posts and comments and creation times are integer-valued
    numbers; user ids are strings. *)

Definition UserId := jsstring.

Record User := {
  user_id : UserId;
  user_name : option jsstring;
  user_image : option jsstring
}.

Record Post := {
  id : Z;
  title : jsstring;
  content : jsstring;
  contentHtml : jsstring;
  createdAt : Z;
  hidden : bool;
  authorId : UserId
}.

Record Comment := {
  comment_id : Z;
  comment_content : jsstring;
  comment_contentHtml : jsstring;
  comment_createdAt : Z;
  comment_authorId : UserId;
  comment_postId : Z
}.

Record LikedPosts := {
  like_postId : Z;
  like_userId : UserId;
  like_createdAt : Z
}.

(** The store behind [ctx.prisma]: its tables in storage order, the next
    id the post table assigns and the time it stamps new rows with. *)
Record Store := {
  posts : list Post;
  users : list User;
  comments : list Comment;
  likedPosts : list LikedPosts;
  nextPostId : Z;
  clock : Z
}.

(** The procedure context that [protectedProcedure] hands to a handler:
    the session's user and the admin flag. *)
Record Ctx := {
  session_user_id : UserId;
  session_user_name : option jsstring;
  isUserAdmin : bool
}.

(** *** Errors and the procedure monad *)

Inductive TRPCCode := NOT_FOUND | FORBIDDEN | BAD_REQUEST.

(** Errors of the store: a unique constraint failed, or a record an
    operation depends on was not found. *)
Inductive PrismaCode := P2002 | P2025.

Inductive Error :=
| TRPCError (code : TRPCCode) (message : option jsstring)
| PrismaError (code : PrismaCode)
| SlackError (reason : jsstring).

Inductive Result (A : Type) :=
| Ok (a : A)
| Err (e : Error).
Arguments Ok {A} a.
Arguments Err {A} e.

(** A procedure runs on the store and ends in a value or a thrown error;
    what it wrote before throwing stays written. *)
Definition Proc (A : Type) := Store -> Result A * Store.

Definition ret {A} (a : A) : Proc A := fun s => (Ok a, s).

Definition throw {A} (e : Error) : Proc A := fun s => (Err e, s).

Definition bind {A B} (m : Proc A) (k : A -> Proc B) : Proc B :=
  fun s =>
    match m s with
    | (Ok a, s') => k a s'
    | (Err e, s') => (Err e, s')
    end.

Definition gets {A} (f : Store -> A) : Proc A := fun s => (Ok (f s), s).

Declare Scope proc_scope.
Delimit Scope proc_scope with proc.
Notation "x <- m ;; k" := (bind m (fun x => k))
  (at level 61, m at next level, right associativity) : proc_scope.
Notation "m ;;; k" := (bind m (fun _ => k))
  (at level 61, right associativity) : proc_scope.
Local Open Scope proc_scope.

(** *** The store's queries *)

(** The collaborators of the router that are not part of it.
    [fulltext_match tq cq title content] is the store's full-text search:
    whether a post with this title and content passes the filters
    [title: { search: tq }] and [content: { search: cq }] taken together.
    [postToSlackIfEnabled] is the Slack notifier, which resolves ([None]) or
    rejects with a reason. *)
Class Collaborators := {
  fulltext_match : option jsstring -> option jsstring -> jsstring -> jsstring -> bool;
  postToSlackIfEnabled : Post -> option jsstring -> option jsstring
}.

(** A [where] argument on posts; an [undefined] field ([None]) filters
    nothing. *)
Record PostWhere := {
  where_hidden : option bool;
  where_authorId : option UserId;
  where_title_search : option jsstring;
  where_content_search : option jsstring
}.

Definition where_matches `{Collaborators} (w : PostWhere) (p : Post) : bool :=
  match where_hidden w with
  | Some h => Bool.eqb (hidden p) h
  | None => true
  end
  && match where_authorId w with
     | Some a => str_eqb (authorId p) a
     | None => true
     end
  && match where_title_search w, where_content_search w with
     | None, None => true
     | tq, cq => fulltext_match tq cq (title p) (content p)
     end.

Fixpoint insert_by {A} (le : A -> A -> bool) (x : A) (l : list A) : list A :=
  match l with
  | [] => [x]
  | y :: r => if le x y then x :: l else y :: insert_by le x r
  end.

(** [orderBy]: a stable sort of the rows. *)
Definition sort_by {A} (le : A -> A -> bool) (l : list A) : list A :=
  fold_right (insert_by le) [] l.

Inductive SortOrder := asc | desc.

Definition createdAt_le (o : SortOrder) (x y : Z) : bool :=
  match o with
  | asc => x <=? y
  | desc => y <=? x
  end.

Record FindManyArgs := {
  fm_take : option Z;
  fm_skip : option Z;
  fm_orderBy_createdAt : option SortOrder;
  fm_where : PostWhere
}.

Definition post_findMany `{Collaborators} (args : FindManyArgs)
    (s : Store) : list Post :=
  let rows := filter (where_matches (fm_where args)) (posts s) in
  let rows := match fm_orderBy_createdAt args with
              | Some o =>
                  sort_by (fun p q => createdAt_le o (createdAt p) (createdAt q)) rows
              | None => rows
              end in
  let rows := match fm_skip args with
              | Some n => skipn (Z.to_nat n) rows
              | None => rows
              end in
  match fm_take args with
  | Some n => firstn (Z.to_nat n) rows
  | None => rows
  end.

Definition post_count `{Collaborators} (w : PostWhere) (s : Store) : Z :=
  Z.of_nat (length (filter (where_matches w) (posts s))).

Definition post_findUnique (i : Z) (s : Store) : option Post :=
  find (fun p => id p =? i) (posts s).

Definition set_posts (ps : list Post) (s : Store) : Store :=
  {| posts := ps; users := users s; comments := comments s;
     likedPosts := likedPosts s; nextPostId := nextPostId s;
     clock := clock s |}.

(** [post.create]: the store assigns the id and the creation time, and
    [hidden] defaults to [false]. *)
Definition post_create (title_ content_ contentHtml_ : jsstring)
    (author : UserId) : Proc Post :=
  fun s =>
    let p := {| id := nextPostId s; title := title_; content := content_;
                contentHtml := contentHtml_; createdAt := clock s;
                hidden := false; authorId := author |} in
    (Ok p,
     {| posts := posts s ++ [p]; users := users s; comments := comments s;
        likedPosts := likedPosts s; nextPostId := nextPostId s + 1;
        clock := clock s |}).

(** [post.update({ where: { id }, data })]: [P2025] when no row has the id. *)
Definition post_update (i : Z) (data : Post -> Post) : Proc Post :=
  fun s =>
    match post_findUnique i s with
    | Some p =>
        (Ok (data p),
         set_posts (map (fun r => if id r =? i then data r else r) (posts s)) s)
    | None => (Err (PrismaError P2025), s)
    end.

(** [post.delete({ where: { id } })]; the rows that refer to the post go
    with it. *)
Definition post_delete (i : Z) : Proc Post :=
  fun s =>
    match post_findUnique i s with
    | Some p =>
        (Ok p,
         {| posts := filter (fun r => negb (id r =? i)) (posts s);
            users := users s;
            comments := filter (fun c => negb (comment_postId c =? i)) (comments s);
            likedPosts := filter (fun l => negb (like_postId l =? i)) (likedPosts s);
            nextPostId := nextPostId s;
            clock := clock s |})
    | None => (Err (PrismaError P2025), s)
    end.

Definition is_like (i : Z) (u : UserId) (l : LikedPosts) : bool :=
  (like_postId l =? i) && str_eqb (like_userId l) u.

Definition set_likedPosts (ls : list LikedPosts) (s : Store) : Store :=
  {| posts := posts s; users := users s; comments := comments s;
     likedPosts := ls; nextPostId := nextPostId s; clock := clock s |}.

(** [likedPosts.create]: the post must exist, and (post, user) is unique. *)
Definition likedPosts_create (i : Z) (u : UserId) : Proc unit :=
  fun s =>
    match post_findUnique i s with
    | None => (Err (PrismaError P2025), s)
    | Some _ =>
        if existsb (is_like i u) (likedPosts s)
        then (Err (PrismaError P2002), s)
        else (Ok tt,
              set_likedPosts
                (likedPosts s ++ [{| like_postId := i; like_userId := u;
                                     like_createdAt := clock s |}]) s)
    end.

Definition likedPosts_delete (i : Z) (u : UserId) : Proc unit :=
  fun s =>
    if existsb (is_like i u) (likedPosts s)
    then (Ok tt,
          set_likedPosts (filter (fun l => negb (is_like i u l)) (likedPosts s)) s)
    else (Err (PrismaError P2025), s).

(** *** What the procedures select *)

Record AuthorSummary := {
  author_id : UserId;
  author_name : option jsstring;
  author_image : option jsstring
}.

Record Liker := {
  liker_id : UserId;
  liker_name : option jsstring
}.

Definition find_user (u : UserId) (s : Store) : option User :=
  find (fun r => str_eqb (user_id r) u) (users s).

(** [author: { select: { id, name, image } }]: the user row the post's
    [authorId] refers to. *)
Definition select_author (u : UserId) (s : Store) : AuthorSummary :=
  {| author_id := u;
     author_name := match find_user u s with
                    | Some r => user_name r
                    | None => None
                    end;
     author_image := match find_user u s with
                     | Some r => user_image r
                     | None => None
                     end |}.

(** [likedBy: { orderBy: { createdAt: 'asc' }, select: { user: { id, name } } }]. *)
Definition select_likedBy (i : Z) (s : Store) : list Liker :=
  map (fun l =>
         {| liker_id := like_userId l;
            liker_name := match find_user (like_userId l) s with
                          | Some r => user_name r
                          | None => None
                          end |})
    (sort_by (fun a b => createdAt_le asc (like_createdAt a) (like_createdAt b))
       (filter (fun l => like_postId l =? i) (likedPosts s))).

Record FeedPost := {
  feed_id : Z;
  feed_title : jsstring;
  feed_contentHtml : jsstring;
  feed_createdAt : Z;
  feed_hidden : bool;
  feed_author : AuthorSummary;
  feed_likedBy : list Liker;
  feed_count_comments : Z
}.

Definition select_feed (s : Store) (p : Post) : FeedPost :=
  {| feed_id := id p;
     feed_title := title p;
     feed_contentHtml := contentHtml p;
     feed_createdAt := createdAt p;
     feed_hidden := hidden p;
     feed_author := select_author (authorId p) s;
     feed_likedBy := select_likedBy (id p) s;
     feed_count_comments :=
       Z.of_nat (length (filter (fun c => comment_postId c =? id p) (comments s))) |}.

Record DetailComment := {
  dc_id : Z;
  dc_content : jsstring;
  dc_contentHtml : jsstring;
  dc_createdAt : Z;
  dc_author : AuthorSummary
}.

Record DetailPost := {
  detail_id : Z;
  detail_title : jsstring;
  detail_content : jsstring;
  detail_contentHtml : jsstring;
  detail_createdAt : Z;
  detail_hidden : bool;
  detail_author : AuthorSummary;
  detail_likedBy : list Liker;
  detail_comments : list DetailComment
}.

Definition select_comments (i : Z) (s : Store) : list DetailComment :=
  map (fun c =>
         {| dc_id := comment_id c;
            dc_content := comment_content c;
            dc_contentHtml := comment_contentHtml c;
            dc_createdAt := comment_createdAt c;
            dc_author := select_author (comment_authorId c) s |})
    (sort_by (fun a b => createdAt_le asc (comment_createdAt a) (comment_createdAt b))
       (filter (fun c => comment_postId c =? i) (comments s))).

Definition select_detail (s : Store) (p : Post) : DetailPost :=
  {| detail_id := id p;
     detail_title := title p;
     detail_content := content p;
     detail_contentHtml := contentHtml p;
     detail_createdAt := createdAt p;
     detail_hidden := hidden p;
     detail_author := select_author (authorId p) s;
     detail_likedBy := select_likedBy (id p) s;
     detail_comments := select_comments (id p) s |}.

Record SearchHit := {
  hit_id : Z;
  hit_title : jsstring
}.

Definition select_hit (p : Post) : SearchHit :=
  {| hit_id := id p; hit_title := title p |}.

(** *** The procedures *)

(** A rejected input: the zod schema of the procedure did not accept it. *)
Definition invalid_input {A} : Proc A := throw (TRPCError BAD_REQUEST None).

Record FeedInput := {
  take : option Z;
  skip : option Z;
  feed_authorId : option UserId
}.

Definition in_range (lo : Z) (hi : option Z) (x : option Z) : bool :=
  match x with
  | None => true
  | Some v => (lo <=? v) && match hi with Some h => v <=? h | None => true end
  end.

Definition feed_input_ok (input : option FeedInput) : bool :=
  match input with
  | None => true
  | Some i => in_range 1 (Some 50) (take i) && in_range 1 None (skip i)
  end.

Record FeedResult := {
  feed_posts : list FeedPost;
  postCount : Z
}.

Definition feed `{Collaborators} (ctx : Ctx) (input : option FeedInput)
    : Proc FeedResult :=
  if negb (feed_input_ok input) then invalid_input else
  let take := match input with
              | Some i => match take i with Some t => t | None => 50 end
              | None => 50
              end in
  let skip := match input with Some i => skip i | None => None end in
  let where_ :=
    {| where_hidden := if isUserAdmin ctx then None else Some false;
       where_authorId := match input with
                         | Some i => feed_authorId i
                         | None => None
                         end;
       where_title_search := None;
       where_content_search := None |} in
  posts <- gets (fun s =>
             map (select_feed s)
               (post_findMany {| fm_take := Some take; fm_skip := skip;
                                 fm_orderBy_createdAt := Some desc;
                                 fm_where := where_ |} s)) ;;
  postCount <- gets (post_count where_) ;;
  ret {| feed_posts := posts; postCount := postCount |}.

Definition not_found_message (i : Z) : jsstring :=
  lit "No post with id '" ++ number_to_string i ++ lit "'".

Definition detail (ctx : Ctx) (i : Z) : Proc DetailPost :=
  post <- gets (fun s => option_map (select_detail s) (post_findUnique i s)) ;;
  let postBelongsToUser :=
    match post with
    | Some p => str_eqb (author_id (detail_author p)) (session_user_id ctx)
    | None => false
    end in
  let refused :=
    match post with
    | None => true
    | Some p =>
        detail_hidden p && negb postBelongsToUser && negb (isUserAdmin ctx)
    end in
  match post, refused with
  | Some p, false => ret p
  | _, _ => throw (TRPCError NOT_FOUND (Some (not_found_message i)))
  end.

Definition search `{Collaborators} (ctx : Ctx) (query : jsstring)
    : Proc (list SearchHit) :=
  if (length query <? 1)%nat then invalid_input else
  gets (fun s =>
    map select_hit
      (post_findMany {| fm_take := Some 10; fm_skip := None;
                        fm_orderBy_createdAt := None;
                        fm_where := {| where_hidden := Some false;
                                       where_authorId := None;
                                       where_title_search := Some query;
                                       where_content_search := Some query |} |} s)).

Definition await_slack `{Collaborators} (post : Post)
    (authorName : option jsstring) : Proc unit :=
  match postToSlackIfEnabled post authorName with
  | None => ret tt
  | Some reason => throw (SlackError reason)
  end.

Definition add `{MarkdownLibs} `{Collaborators} (ctx : Ctx)
    (title_ content_ : jsstring) : Proc Post :=
  if (length title_ <? 1)%nat || (length content_ <? 1)%nat
  then invalid_input else
  post <- post_create title_ content_ (markdownToHtml content_)
            (session_user_id ctx) ;;
  await_slack post (session_user_name ctx) ;;;
  ret post.

Record EditData := {
  data_title : jsstring;
  data_content : jsstring
}.

(** [post?.author.id === ctx.session.user.id] on the row selected with
    [author: { select: { id } }]. *)
Definition belongs_to (ctx : Ctx) (post : option Post) : bool :=
  match post with
  | Some p => str_eqb (authorId p) (session_user_id ctx)
  | None => false
  end.

Definition edit `{MarkdownLibs} (ctx : Ctx) (i : Z) (data : EditData)
    : Proc Post :=
  if (length (data_title data) <? 1)%nat || (length (data_content data) <? 1)%nat
  then invalid_input else
  post <- gets (post_findUnique i) ;;
  let postBelongsToUser := belongs_to ctx post in
  if negb postBelongsToUser then throw (TRPCError FORBIDDEN None) else
  updatedPost <- post_update i (fun p =>
                   {| id := id p;
                      title := data_title data;
                      content := data_content data;
                      contentHtml := markdownToHtml (data_content data);
                      createdAt := createdAt p;
                      hidden := hidden p;
                      authorId := authorId p |}) ;;
  ret updatedPost.

Definition delete (ctx : Ctx) (i : Z) : Proc Z :=
  post <- gets (post_findUnique i) ;;
  let postBelongsToUser := belongs_to ctx post in
  if negb postBelongsToUser then throw (TRPCError FORBIDDEN None) else
  post_delete i ;;;
  ret i.

Definition like (ctx : Ctx) (i : Z) : Proc Z :=
  likedPosts_create i (session_user_id ctx) ;;;
  ret i.

Definition unlike (ctx : Ctx) (i : Z) : Proc Z :=
  likedPosts_delete i (session_user_id ctx) ;;;
  ret i.

Definition set_hidden (h : bool) (p : Post) : Post :=
  {| id := id p; title := title p; content := content p;
     contentHtml := contentHtml p; createdAt := createdAt p;
     hidden := h; authorId := authorId p |}.

Definition hide (ctx : Ctx) (i : Z) : Proc Z :=
  if negb (isUserAdmin ctx) then throw (TRPCError FORBIDDEN None) else
  post <- post_update i (set_hidden true) ;;
  ret (id post).

Definition unhide (ctx : Ctx) (i : Z) : Proc Z :=
  if negb (isUserAdmin ctx) then throw (TRPCError FORBIDDEN None) else
  post <- post_update i (set_hidden false) ;;
  ret (id post).

(** *** Vocabulary of the properties *)

(** A call of one of the router's procedures, with its input. *)
Inductive Call :=
| CallFeed (input : option FeedInput)
| CallDetail (i : Z)
| CallSearch (query : jsstring)
| CallAdd (title_ content_ : jsstring)
| CallEdit (i : Z) (data : EditData)
| CallDelete (i : Z)
| CallLike (i : Z)
| CallUnlike (i : Z)
| CallHide (i : Z)
| CallUnhide (i : Z).

(** The store a call leaves behind, whether it returned or threw. *)
Definition store_after `{MarkdownLibs} `{Collaborators} (ctx : Ctx)
    (call : Call) (s : Store) : Store :=
  match call with
  | CallFeed input => snd (feed ctx input s)
  | CallDetail i => snd (detail ctx i s)
  | CallSearch query => snd (search ctx query s)
  | CallAdd title_ content_ => snd (add ctx title_ content_ s)
  | CallEdit i data => snd (edit ctx i data s)
  | CallDelete i => snd (delete ctx i s)
  | CallLike i => snd (like ctx i s)
  | CallUnlike i => snd (unlike ctx i s)
  | CallHide i => snd (hide ctx i s)
  | CallUnhide i => snd (unhide ctx i s)
  end.

(** Every stored post's [contentHtml] is the rendering of its [content]. *)
Definition rendered `{MarkdownLibs} (s : Store) : Prop :=
  Forall (fun p => contentHtml p = markdownToHtml (content p)) (posts s).

(** The posts [feed] lists for a caller and input, before ordering and
    paging. *)
Definition feed_keeps (ctx : Ctx) (input : option FeedInput) (p : Post) : bool :=
  (isUserAdmin ctx || negb (hidden p))
  && match input with
     | Some {| feed_authorId := Some a |} => str_eqb (authorId p) a
     | _ => true
     end.

Definition feed_take (input : option FeedInput) : nat :=
  match input with
  | Some {| take := Some t |} => Z.to_nat t
  | _ => 50%nat
  end.

Definition feed_skip (input : option FeedInput) : nat :=
  match input with
  | Some {| skip := Some n |} => Z.to_nat n
  | _ => 0%nat
  end.

(** [detail] is refused: no post has the id, or the post is hidden and the
    caller is neither its author nor an admin. *)
Definition detail_refused (ctx : Ctx) (i : Z) (s : Store) : Prop :=
  match post_findUnique i s with
  | None => True
  | Some p =>
      hidden p = true /\ authorId p <> session_user_id ctx /\
      isUserAdmin ctx = false
  end.

(** The posts [search] may list for a query. *)
Definition search_keeps `{Collaborators} (query : jsstring) (p : Post) : bool :=
  negb (hidden p)
  && fulltext_match (Some query) (Some query) (title p) (content p).

End PostRouter.

(** ** Sample collaborators

    Concrete libraries, store search and notifier to run the procedures
    on: a renderer that wraps the text in a paragraph, a search that looks
    for the query as a substring of the title or of the content, a notifier
    that always rejects and one that always resolves, and a line-based
    cursor. *)
Module Samples.
Import JS Editor PostRouter.

Definition contains (s q : jsstring) : bool :=
  match indexOf q s with
  | Some _ => true
  | None => false
  end.

Definition plain_markdown : MarkdownLibs := {|
  marked_parse := fun markdown _ => lit "<p>" ++ markdown ++ lit "</p>";
  DOMPurify_sanitize := fun html => html
|}.

Definition substring_search_failing_slack : Collaborators := {|
  fulltext_match := fun tq cq title_ content_ =>
    match tq with Some q => contains title_ q | None => false end
    || match cq with Some q => contains content_ q | None => false end;
  postToSlackIfEnabled := fun _ _ => Some (lit "fetch failed")
|}.

Definition substring_search_working_slack : Collaborators := {|
  fulltext_match := fun tq cq title_ content_ =>
    match tq with Some q => contains title_ q | None => false end
    || match cq with Some q => contains content_ q | None => false end;
  postToSlackIfEnabled := fun _ _ => None
|}.

Definition line_feed : code_unit := 10%N.

Fixpoint join_lines (ls : list jsstring) : jsstring :=
  match ls with
  | [] => []
  | [l] => l
  | l :: r => l ++ line_feed :: join_lines r
  end.

Fixpoint set_nth {A} (n : nat) (x : A) (l : list A) : list A :=
  match l, n with
  | [], _ => []
  | _ :: r, O => x :: r
  | y :: r, S m => y :: set_nth m x r
  end.

(** Lines are the pieces of the text between line feeds, numbered from 1;
    replacing a line that does not exist changes nothing. *)
Definition line_cursor : CursorLib := {|
  position_line_lineNumber := fun ta =>
    length (split (N.eqb line_feed) (firstn (selectionStart ta) (value ta)));
  replaceLine := fun lineNumber content_ v =>
    join_lines (set_nth (lineNumber - 1) content_ (split (N.eqb line_feed) v))
|}.

Definition alice : UserId := lit "alice".
Definition bob : UserId := lit "bob".

Definition ctx_of (u : UserId) (admin : bool) : Ctx :=
  {| session_user_id := u; session_user_name := Some u; isUserAdmin := admin |}.

Definition empty_store : Store :=
  {| posts := []; users := []; comments := []; likedPosts := [];
     nextPostId := 1; clock := 1000 |}.

Definition sample_post (i : Z) (title_ : string) (at_ : Z) (h : bool)
    (author : UserId) : Post :=
  {| id := i; title := lit title_; content := lit "cat";
     contentHtml := lit "<p>cat</p>"; createdAt := at_; hidden := h;
     authorId := author |}.

Definition store_of (ps : list Post) : Store :=
  {| posts := ps; users := []; comments := []; likedPosts := [];
     nextPostId := 100; clock := 1000 |}.

(** A store of three posts: one by alice, one hidden by alice, one by bob. *)
Definition three_posts : Store :=
  store_of [sample_post 1 "first" 10 false alice;
            sample_post 2 "second" 20 true alice;
            sample_post 3 "third" 30 false bob].

(** Eleven posts titled ["cat"], none of them hidden. *)
Definition eleven_cats : list Post :=
  map (fun i => sample_post i "cat" i false alice)
    [1; 2; 3; 4; 5; 6; 7; 8; 9; 10; 11].

End Samples.

Import JS Editor PostRouter.

(** * Properties *)

(** ** Strings *)

Section SplitFacts.
Variable sep : code_unit -> bool.

Lemma split_nonempty (s : jsstring) : split sep s <> [].
Proof.
  destruct s as [|c r]; simpl; [discriminate|].
  destruct (sep c); [discriminate|].
  destruct (split sep r); discriminate.
Qed.

Lemma split_app (a b : jsstring) (c : code_unit) :
  sep c = true -> split sep (a ++ c :: b) = split sep a ++ split sep b.
Proof.
  intros Hc. induction a as [|x a IH]; simpl.
  - now rewrite Hc.
  - rewrite IH. destruct (sep x); [reflexivity|].
    pose proof (split_nonempty a) as Hne.
    destruct (split sep a); [contradiction|reflexivity].
Qed.

Lemma split_no_separator (w : jsstring) :
  Forall (fun c => sep c = false) w -> split sep w = [w].
Proof.
  induction 1 as [|c w Hc _ IH]; simpl; [reflexivity|].
  now rewrite Hc, IH.
Qed.

(** The last piece is the part of the string after its last separator. *)
Lemma split_last_piece (s : jsstring) :
  exists pre,
    s = pre ++ last (split sep s) [] /\
    Forall (fun c => sep c = false) (last (split sep s) []) /\
    (pre = [] \/ exists p c, pre = p ++ [c] /\ sep c = true).
Proof.
  induction s as [|x s IH] using rev_ind.
  - exists []. simpl. repeat split; auto.
  - destruct (sep x) eqn:Hx.
    + exists (s ++ [x]). rewrite split_app by assumption. simpl.
      rewrite last_last. rewrite app_nil_r. repeat split; auto.
      right. now exists s, x.
    + destruct IH as (pre & Hs & Hw & Hpre).
      set (w := last (split sep s) []) in *.
      assert (Hw' : Forall (fun c => sep c = false) (w ++ [x])).
      { apply Forall_app; split; [assumption|]. now constructor. }
      assert (Hlast : last (split sep (s ++ [x])) [] = w ++ [x]).
      { rewrite Hs, <- app_assoc.
        destruct Hpre as [->|(p & c & -> & Hc)].
        - simpl. now rewrite split_no_separator.
        - rewrite <- app_assoc. simpl.
          rewrite split_app by assumption.
          rewrite (split_no_separator (w ++ [x])) by assumption.
          now rewrite last_last. }
      exists pre. rewrite Hlast. repeat split; auto.
      rewrite Hs at 1. now rewrite app_assoc.
Qed.

End SplitFacts.

Lemma str_eqb_refl (a : jsstring) : str_eqb a a = true.
Proof. unfold str_eqb. now destruct (list_eq_dec N.eq_dec a a). Qed.

Lemma str_eqb_eq (a b : jsstring) : str_eqb a b = true <-> a = b.
Proof.
  unfold str_eqb. destruct (list_eq_dec N.eq_dec a b); split; congruence.
Qed.

Lemma slice_prefix (s : jsstring) (n : nat) :
  slice s 0 (Some (Z.of_nat n)) = firstn n s.
Proof.
  unfold slice, relative_index.
  replace (0 <? 0) with false by reflexivity.
  replace (Z.of_nat n <? 0) with false by (symmetry; apply Z.ltb_ge; lia).
  rewrite (Z.min_l 0) by lia. simpl skipn.
  destruct (Nat.le_gt_cases n (length s)).
  - f_equal. lia.
  - rewrite (firstn_all2 (n := n)) by lia. apply firstn_all2. lia.
Qed.

Lemma slice_suffix (s : jsstring) (k : nat) :
  slice s (Z.of_nat k) None = skipn k s.
Proof.
  unfold slice, relative_index.
  replace (Z.of_nat k <? 0) with false by (symmetry; apply Z.ltb_ge; lia).
  destruct (Nat.le_gt_cases k (length s)).
  - rewrite Z.min_l by lia. rewrite Nat2Z.id.
    apply firstn_all2. rewrite length_skipn. lia.
  - rewrite Z.min_r by lia. rewrite Nat2Z.id.
    rewrite (skipn_all2 (n := k)) by lia.
    rewrite skipn_all. now rewrite firstn_nil.
Qed.

Lemma endsWith_app (pre w : jsstring) : endsWith (pre ++ w) w = true.
Proof.
  unfold endsWith. rewrite length_app.
  replace (length pre + length w - length w)%nat with (length pre) by lia.
  rewrite skipn_app, skipn_all, Nat.sub_diag. simpl.
  rewrite str_eqb_refl, andb_true_r. apply Nat.leb_le. lia.
Qed.

(** ** Trigger detection *)

(** What [getSuggestionData] computes, in terms of the text before the
    caret split at its last white space. *)
Lemma getSuggestionData_word (ta : HTMLTextAreaElement) :
  exists pre word,
    firstn (selectionStart ta) (value ta) = pre ++ word /\
    Forall (fun c => is_whitespace c = false) word /\
    (pre = [] \/ exists p c, pre = p ++ [c] /\ is_whitespace c = true) /\
    getSuggestionData ta =
      {| keystrokeTriggered :=
           is_char (hd_error word) (char "@") || is_char (hd_error word) (char ":");
         triggerIdx := Z.of_nat (length pre);
         type := if is_char (hd_error word) (char "@") then mention else emoji;
         query := tl word |}.
Proof.
  unfold getSuggestionData. rewrite slice_prefix.
  set (tb := firstn (selectionStart ta) (value ta)).
  destruct (split_last_piece is_whitespace tb) as (pre & Htb & Hw & Hpre).
  set (w := last (split is_whitespace tb) []) in *.
  exists pre, w. repeat split; try assumption.
  assert (He : endsWith tb w = true) by (rewrite Htb; apply endsWith_app).
  rewrite He.
  assert (Hidx : Z.of_nat (length tb) - Z.of_nat (length w) = Z.of_nat (length pre)).
  { rewrite Htb, length_app. lia. }
  rewrite Hidx.
  assert (Hc : char_at tb (Z.of_nat (length pre)) = hd_error w).
  { unfold char_at.
    replace (Z.of_nat (length pre) <? 0) with false by (symmetry; apply Z.ltb_ge; lia).
    rewrite Nat2Z.id, Htb, nth_error_app2 by lia.
    rewrite Nat.sub_diag. now destruct w. }
  rewrite Hc.
  assert (Hq : slice tb (Z.of_nat (length pre) + 1) None = tl w).
  { replace (Z.of_nat (length pre) + 1) with (Z.of_nat (S (length pre))) by lia.
    rewrite slice_suffix, Htb.
    rewrite skipn_app.
    rewrite (skipn_all2 (n := S (length pre))) by lia.
    replace (S (length pre) - length pre)%nat with 1%nat by lia.
    now destruct w. }
  now rewrite Hq.
Qed.

(** C8.  Trigger detection isolates the word before the caret at the last
    white space and classifies it by its leading character: the trigger
    index is the offset of that word, a trigger is active exactly when the
    word starts with [@] or [:], the type is [mention] exactly for [@], and
    the query is the word without its leading character.  On ["hello @al"]
    with the caret at the end it reports an active mention trigger at index
    6 with query ["al"], on ["type :sm"] an active emoji trigger with query
    ["sm"], and on ["no trigger here"] no active trigger. *)
Theorem getSuggestionData_trigger_detection :
  (forall ta : HTMLTextAreaElement,
     exists pre word,
       firstn (selectionStart ta) (value ta) = pre ++ word /\
       Forall (fun c => is_whitespace c = false) word /\
       (pre = [] \/ exists p c, pre = p ++ [c] /\ is_whitespace c = true) /\
       triggerIdx (getSuggestionData ta) = Z.of_nat (length pre) /\
       keystrokeTriggered (getSuggestionData ta) =
         (is_char (hd_error word) (char "@") || is_char (hd_error word) (char ":")) /\
       type (getSuggestionData ta) =
         (if is_char (hd_error word) (char "@") then mention else emoji) /\
       query (getSuggestionData ta) = tl word) /\
  getSuggestionData (caret_at_end (lit "hello @al")) =
    {| keystrokeTriggered := true; triggerIdx := 6; type := mention;
       query := lit "al" |} /\
  (keystrokeTriggered (getSuggestionData (caret_at_end (lit "type :sm"))) = true /\
   type (getSuggestionData (caret_at_end (lit "type :sm"))) = emoji /\
   query (getSuggestionData (caret_at_end (lit "type :sm"))) = lit "sm") /\
  keystrokeTriggered (getSuggestionData (caret_at_end (lit "no trigger here"))) = false.
Proof.
  split; [|repeat split; reflexivity].
  intros ta.
  destruct (getSuggestionData_word ta) as (pre & word & Htb & Hw & Hpre & Hd).
  exists pre, word. rewrite Hd. simpl. repeat split; assumption.
Qed.

Lemma slice_between (s : jsstring) (a b : nat) :
  slice s (Z.of_nat a) (Some (Z.of_nat b)) = skipn a (firstn b s).
Proof.
  rewrite skipn_firstn_comm.
  unfold slice, relative_index.
  replace (Z.of_nat a <? 0) with false by (symmetry; apply Z.ltb_ge; lia).
  replace (Z.of_nat b <? 0) with false by (symmetry; apply Z.ltb_ge; lia).
  destruct (Nat.le_gt_cases (length s) a) as [Ha|Ha].
  - rewrite (Z.min_r (Z.of_nat a)) by lia. rewrite Nat2Z.id.
    rewrite skipn_all, (skipn_all2 (n := a)) by lia.
    now rewrite !firstn_nil.
  - rewrite (Z.min_l (Z.of_nat a)) by lia. rewrite Nat2Z.id.
    destruct (Nat.le_gt_cases b (length s)) as [Hb|Hb].
    + f_equal. lia.
    + rewrite Z.min_r by lia.
      rewrite !firstn_all2; [reflexivity| |]; rewrite length_skipn; lia.
Qed.

(** C10.  When no trigger is active the other fields are still filled in:
    the type is [emoji], the trigger index is the offset at which the last
    white-space-delimited word before the caret starts, and the query is the
    text from index [triggerIdx + 1] up to the caret. *)
Theorem getSuggestionData_untriggered (ta : HTMLTextAreaElement) :
  keystrokeTriggered (getSuggestionData ta) = false ->
  type (getSuggestionData ta) = emoji /\
  (exists pre word,
     firstn (selectionStart ta) (value ta) = pre ++ word /\
     Forall (fun c => is_whitespace c = false) word /\
     (pre = [] \/ exists p c, pre = p ++ [c] /\ is_whitespace c = true) /\
     triggerIdx (getSuggestionData ta) = Z.of_nat (length pre)) /\
  query (getSuggestionData ta) =
    slice (value ta) (triggerIdx (getSuggestionData ta) + 1)
      (Some (Z.of_nat (selectionStart ta))).
Proof.
  destruct (getSuggestionData_word ta) as (pre & word & Htb & Hw & Hpre & Hd).
  rewrite Hd. simpl. intros Hk.
  apply orb_false_iff in Hk. destruct Hk as [Hm _].
  rewrite Hm. split; [reflexivity|]. split.
  - exists pre, word. repeat split; assumption.
  - replace (Z.of_nat (length pre) + 1) with (Z.of_nat (S (length pre))) by lia.
    rewrite slice_between, Htb, skipn_app.
    rewrite (skipn_all2 (n := S (length pre))) by lia.
    replace (S (length pre) - length pre)%nat with 1%nat by lia.
    now destruct word.
Qed.

(** C10 at ["no trigger here"] with the caret at the end: no trigger, and
    yet type [emoji], index 11 and query ["ere"]. *)
Lemma getSuggestionData_untriggered_example :
  keystrokeTriggered (getSuggestionData (caret_at_end (lit "no trigger here"))) = false /\
  type (getSuggestionData (caret_at_end (lit "no trigger here"))) = emoji /\
  triggerIdx (getSuggestionData (caret_at_end (lit "no trigger here"))) = 11 /\
  query (getSuggestionData (caret_at_end (lit "no trigger here"))) = lit "ere".
Proof.
  pose proof (getSuggestionData_untriggered
                (caret_at_end (lit "no trigger here")) eq_refl) as [Ht _].
  split; [reflexivity|]. split; [exact Ht|]. split; reflexivity.
Defined.

(** ** Placeholder replacement *)

Lemma starts_with_prefix (t s : jsstring) :
  starts_with s t = true <-> exists post, s = t ++ post.
Proof.
  revert s. induction t as [|c t IH]; intros s; simpl.
  - split; [intros _; now exists s|reflexivity].
  - destruct s as [|d s].
    + split; [discriminate|]. intros [post Hp]. discriminate.
    + rewrite andb_true_iff, N.eqb_eq, IH. split.
      * intros [-> [post ->]]. now exists post.
      * intros [post Hp]. injection Hp as -> ->. split; [reflexivity|now exists post].
Qed.

Lemma indexOf_first_occurrence (pat s pre post : jsstring) :
  first_occurrence pat s pre post -> indexOf pat s = Some (length pre).
Proof.
  revert pre. induction s as [|x r IH]; intros pre [Hs Hmin].
  - destruct pre; [|discriminate]. destruct pat; [|discriminate]. reflexivity.
  - simpl indexOf. destruct (starts_with (x :: r) pat) eqn:Hsw.
    + apply starts_with_prefix in Hsw. destruct Hsw as [post' Hp].
      specialize (Hmin [] post' Hp). simpl in Hmin.
      destruct pre; [reflexivity|simpl in Hmin; lia].
    + destruct pre as [|y pre'].
      * assert (starts_with (x :: r) pat = true) as Hc
          by (apply starts_with_prefix; now exists post).
        congruence.
      * simpl in Hs. injection Hs as -> Hr.
        rewrite (IH pre'); [reflexivity|].
        split; [assumption|]. intros p' q' Hr'.
        specialize (Hmin (y :: p') q'). simpl in Hmin.
        rewrite <- Hr' in Hmin. specialize (Hmin eq_refl). lia.
Qed.

Lemma getSubstitution_no_dollar (matched before after repl : jsstring) :
  no_dollar repl -> getSubstitution matched before after repl = repl.
Proof.
  induction 1 as [|c r Hc _ IH]; simpl; [reflexivity|].
  apply N.eqb_neq in Hc. now rewrite Hc, IH.
Qed.

(** With no dollar sign in the replacement text, [replace] puts it in
    place of the first occurrence of the pattern, as it is. *)
Lemma replace_first_occurrence (s pat repl pre post : jsstring) :
  first_occurrence pat s pre post -> no_dollar repl ->
  replace s pat repl = pre ++ repl ++ post.
Proof.
  intros Hocc Hrepl. unfold replace.
  rewrite (indexOf_first_occurrence _ _ _ _ Hocc).
  destruct Hocc as [-> _].
  rewrite getSubstitution_no_dollar by assumption.
  rewrite firstn_app, firstn_all, Nat.sub_diag. simpl. rewrite app_nil_r.
  f_equal. f_equal.
  rewrite skipn_app, (skipn_all2 (n := (length pre + length pat)%nat)) by lia.
  replace (length pre + length pat - length pre)%nat with (length pat) by lia.
  simpl. rewrite skipn_app, skipn_all, Nat.sub_diag. reflexivity.
Qed.

Lemma no_dollar_app (a b : jsstring) :
  no_dollar a -> no_dollar b -> no_dollar (a ++ b).
Proof. intros Ha Hb. apply Forall_app. now split. Qed.

Lemma no_dollar_digits (d : Decimal.uint) :
  no_dollar (lit (NilEmpty.string_of_uint d)).
Proof.
  induction d; simpl; try (constructor; [discriminate|assumption]).
  constructor.
Qed.

Lemma number_to_string_no_dollar (n : Z) : no_dollar (number_to_string n).
Proof.
  unfold number_to_string, NilZero.string_of_int, NilZero.string_of_uint.
  destruct (Z.to_int n) as [d|d].
  - destruct d; try apply (no_dollar_digits (_ _)).
    repeat constructor; discriminate.
  - change (no_dollar (char "-" :: lit
      match d with Decimal.Nil => "0" | _ => NilEmpty.string_of_uint d end)).
    constructor; [discriminate|].
    destruct d; try apply (no_dollar_digits (_ _)).
    repeat constructor; discriminate.
Qed.

Create HintDb dollar.
#[local] Hint Resolve no_dollar_app number_to_string_no_dollar : dollar.

Lemma img_tag_no_dollar (u : UploadedImage) :
  no_dollar (originalFilename u) -> no_dollar (url u) -> no_dollar (img_tag u).
Proof.
  intros Hn Hu. unfold img_tag.
  repeat (apply no_dollar_app; auto with dollar);
    repeat constructor; discriminate.
Qed.

Section UploadHandler.
Context `{CursorLib}.


End UploadHandler.

Lemma first_occurrence_at_start (pat post : jsstring) :
  first_occurrence pat (pat ++ post) [] post.
Proof. split; [reflexivity|]. intros. simpl. lia. Qed.


(** Two files dropped on one line: the second callback replaces the line
    that held the first placeholder, so when the first upload settles its
    placeholder is gone and its image is not inserted. *)
Example upload_two_files_one_line :
  text (@uploadImageCommandHandler Samples.line_cursor
          {| value := lit "draft"; selectionStart := 5 |}
          [{| name := lit "a.png" |}; {| name := lit "b.png" |}] []) =
    lit "![Uploading b.png...]()" /\
  text (@uploadImageCommandHandler Samples.line_cursor
          {| value := lit "draft"; selectionStart := 5 |}
          [{| name := lit "a.png" |}; {| name := lit "b.png" |}]
          [(0%nat, Uploaded {| url := lit "u"; width := 10;
                               originalFilename := lit "a.png"; dpi := None |})]) =
    lit "![Uploading b.png...]()".
Proof. split; reflexivity. Qed.

(** A file name with [$$] in it does not reach the tag as it is: [replace]
    expands the pattern to one dollar sign. *)
Example upload_dollar_in_filename :
  text (upload_settled {| name := lit "cat.png" |}
          (Uploaded {| url := lit "u"; width := 10;
                       originalFilename := lit "c$$t.png"; dpi := None |})
          {| text := lit "![Uploading cat.png...]()"; toasts := []; console := [] |}) =
    lit "<img width=" ++ [dquote] ++ lit "10" ++ [dquote]
      ++ lit " alt=" ++ [dquote] ++ lit "c$t.png" ++ [dquote]
      ++ lit " src=" ++ [dquote] ++ lit "u" ++ [dquote] ++ lit ">".
Proof. reflexivity. Qed.


(** ** Ordering *)

Section Sorting.
Context {A : Type} (le : A -> A -> bool).
Hypothesis le_total : forall x y, le x y = true \/ le y x = true.
Hypothesis le_trans : forall x y z, le x y = true -> le y z = true -> le x z = true.

Lemma insert_by_perm (x : A) (l : list A) : Permutation (insert_by le x l) (x :: l).
Proof.
  induction l as [|y r IH]; simpl; [reflexivity|].
  destruct (le x y); [reflexivity|].
  rewrite IH. apply perm_swap.
Qed.

Lemma sort_by_perm (l : list A) : Permutation (sort_by le l) l.
Proof.
  induction l as [|x l IH]; simpl; [reflexivity|].
  rewrite insert_by_perm. now constructor.
Qed.

Lemma insert_by_sorted (x : A) (l : list A) :
  StronglySorted (fun a b => le a b = true) l ->
  StronglySorted (fun a b => le a b = true) (insert_by le x l).
Proof.
  induction 1 as [|y r Hr IH Hy]; simpl.
  - repeat constructor.
  - destruct (le x y) eqn:Hxy.
    + constructor; [now constructor|].
      constructor; [assumption|].
      eapply Forall_impl; [|exact Hy]. intros z Hz. now apply (le_trans x y z).
    + constructor; [assumption|].
      eapply Permutation_Forall; [symmetry; apply insert_by_perm|].
      constructor; [|assumption].
      destruct (le_total x y); congruence.
Qed.

Lemma sort_by_sorted (l : list A) :
  StronglySorted (fun a b => le a b = true) (sort_by le l).
Proof.
  induction l as [|x l IH]; simpl; [constructor|].
  now apply insert_by_sorted.
Qed.

End Sorting.

Lemma StronglySorted_skipn {A} (R : A -> A -> Prop) (n : nat) (l : list A) :
  StronglySorted R l -> StronglySorted R (skipn n l).
Proof.
  revert l. induction n as [|n IH]; intros l Hl; [assumption|].
  destruct l as [|x l]; [assumption|].
  simpl. apply IH. now inversion Hl.
Qed.

Lemma Forall_firstn {A} (P : A -> Prop) (n : nat) (l : list A) :
  Forall P l -> Forall P (firstn n l).
Proof.
  intros Hl. revert n.
  induction Hl as [|x l Hx _ IH]; intros [|n]; simpl; constructor; auto.
Qed.

Lemma Forall_skipn {A} (P : A -> Prop) (n : nat) (l : list A) :
  Forall P l -> Forall P (skipn n l).
Proof.
  revert l. induction n as [|n IH]; intros l Hl; [assumption|].
  destruct l as [|x l]; [assumption|].
  simpl. apply IH. now inversion Hl.
Qed.

Lemma StronglySorted_firstn {A} (R : A -> A -> Prop) (n : nat) (l : list A) :
  StronglySorted R l -> StronglySorted R (firstn n l).
Proof.
  intros Hs. revert n.
  induction Hs as [|x l Hl IH Hx]; intros [|n]; simpl; constructor.
  - apply IH.
  - now apply Forall_firstn.
Qed.

Lemma StronglySorted_map {A B} (f : A -> B) (R : B -> B -> Prop) (l : list A) :
  StronglySorted (fun a b => R (f a) (f b)) l -> StronglySorted R (map f l).
Proof.
  induction 1 as [|x l Hl IH Hx]; simpl; constructor; [assumption|].
  now apply Forall_map.
Qed.

Lemma StronglySorted_weaken {A} (R Q : A -> A -> Prop) (l : list A) :
  (forall a b, R a b -> Q a b) -> StronglySorted R l -> StronglySorted Q l.
Proof.
  intros HRQ. induction 1 as [|x l Hl IH Hx]; constructor; [assumption|].
  eapply Forall_impl; [|exact Hx]. auto.
Qed.

Lemma Forall_filter_true {A} (f : A -> bool) (l : list A) :
  Forall (fun x => f x = true) (filter f l).
Proof. apply Forall_forall. intros x Hx. now apply filter_In in Hx. Qed.

(** ** The post router *)

Section Router.
Context `{MarkdownLibs} `{Collaborators}.

(** *** feed *)

Lemma where_matches_feed (ctx : Ctx) (input : option FeedInput) (p : Post) :
  where_matches
    {| where_hidden := if isUserAdmin ctx then None else Some false;
       where_authorId := match input with
                         | Some i => feed_authorId i
                         | None => None
                         end;
       where_title_search := None;
       where_content_search := None |} p
  = feed_keeps ctx input p.
Proof.
  unfold where_matches, feed_keeps. simpl.
  destruct (isUserAdmin ctx), (hidden p), input as [[t k [a|]]|]; simpl;
    rewrite ?andb_true_r; reflexivity.
Qed.

(** C6.  A valid [feed] call returns, leaving the store as it is, a page
    and a count such that: the page is [take] rows after the first [skip]
    of the kept posts in descending order of creation time, where a post is
    kept when it is not hidden or the caller is an admin, and is by the
    given author if one is given; the count is the number of all kept
    posts, whatever [take] and [skip] are. *)
Theorem feed_page_and_count (ctx : Ctx) (input : option FeedInput) (s : Store) :
  feed_input_ok input = true ->
  exists rows ordered,
    feed ctx input s =
      (Ok {| feed_posts := map (select_feed s) rows;
             postCount := Z.of_nat (length (filter (feed_keeps ctx input) (posts s))) |},
       s) /\
    Permutation ordered (filter (feed_keeps ctx input) (posts s)) /\
    StronglySorted (fun p q => createdAt q <= createdAt p) ordered /\
    rows = firstn (feed_take input) (skipn (feed_skip input) ordered) /\
    Forall (fun r =>
              (isUserAdmin ctx = false -> feed_hidden r = false) /\
              (forall i a, input = Some i -> feed_authorId i = Some a ->
                           author_id (feed_author r) = a))
      (map (select_feed s) rows) /\
    StronglySorted (fun a b => feed_createdAt b <= feed_createdAt a)
      (map (select_feed s) rows).
Proof.
  intros Hok.
  set (keep := feed_keeps ctx input).
  set (ordered :=
         sort_by (fun p q => createdAt_le desc (createdAt p) (createdAt q))
           (filter keep (posts s))).
  set (rows := firstn (feed_take input) (skipn (feed_skip input) ordered)).
  assert (Hsorted : StronglySorted (fun p q => createdAt q <= createdAt p) ordered).
  { apply StronglySorted_weaken
      with (R := fun p q => createdAt_le desc (createdAt p) (createdAt q) = true).
    - intros a b Hab. now apply Z.leb_le in Hab.
    - apply sort_by_sorted.
      + intros x y. simpl. rewrite !Z.leb_le. lia.
      + intros x y z. simpl. rewrite !Z.leb_le. lia. }
  assert (Hperm : Permutation ordered (filter keep (posts s)))
    by apply sort_by_perm.
  assert (Hrows_sorted : StronglySorted (fun p q => createdAt q <= createdAt p) rows)
    by now apply StronglySorted_firstn, StronglySorted_skipn.
  assert (Hkept : Forall (fun p => keep p = true) rows).
  { apply Forall_firstn, Forall_skipn.
    eapply Permutation_Forall; [symmetry; exact Hperm|].
    apply Forall_filter_true. }
  exists rows, ordered. repeat apply conj; try assumption; try reflexivity.
  - unfold feed. rewrite Hok. simpl.
    unfold bind, gets, ret, post_findMany, post_count. simpl.
    rewrite (filter_ext _ _ (where_matches_feed ctx input)).
    fold keep. clear Hsorted Hperm Hrows_sorted Hkept.
    subst rows ordered. unfold feed_take, feed_skip.
    destruct input as [[[t|] [k|] a]|]; reflexivity.
  - apply Forall_map. eapply Forall_impl; [|exact Hkept].
    intros p Hp. unfold keep, feed_keeps in Hp.
    apply andb_true_iff in Hp. destruct Hp as [Hvis Hauth]. split.
    + intros Hadm. simpl. rewrite Hadm in Hvis. simpl in Hvis.
      now apply negb_true_iff in Hvis.
    + intros i a -> Ha. simpl. destruct i as [t k a']. simpl in Ha. subst a'.
      now apply str_eqb_eq in Hauth.
  - now apply StronglySorted_map.
Qed.

(** *** detail *)

Lemma detail_cases (ctx : Ctx) (i : Z) (s : Store) :
  detail ctx i s =
    match post_findUnique i s with
    | None => (Err (TRPCError NOT_FOUND (Some (not_found_message i))), s)
    | Some p =>
        if hidden p && negb (str_eqb (authorId p) (session_user_id ctx))
           && negb (isUserAdmin ctx)
        then (Err (TRPCError NOT_FOUND (Some (not_found_message i))), s)
        else (Ok (select_detail s p), s)
    end.
Proof.
  unfold detail, bind, gets, throw, ret.
  destruct (post_findUnique i s) as [p|]; simpl; [|reflexivity].
  now destruct (hidden p && negb (str_eqb (authorId p) (session_user_id ctx))
                && negb (isUserAdmin ctx)).
Qed.

Lemma str_eqb_neq (a b : jsstring) : str_eqb a b = false <-> a <> b.
Proof.
  unfold str_eqb. destruct (list_eq_dec N.eq_dec a b); split; congruence.
Qed.

Lemma refused_test (ctx : Ctx) (p : Post) :
  hidden p && negb (str_eqb (authorId p) (session_user_id ctx))
  && negb (isUserAdmin ctx) = true
  <-> hidden p = true /\ authorId p <> session_user_id ctx /\
      isUserAdmin ctx = false.
Proof.
  rewrite !andb_true_iff, !negb_true_iff, str_eqb_neq. tauto.
Qed.

(** C2.  [detail] throws [NOT_FOUND] with the message
    [No post with id '<id>'] exactly when no post has the id or the post is
    hidden and the caller is neither its author nor an admin, and returns the
    post otherwise; the store is left as it is.  The error for a hidden post
    of someone else is the error for an id that no post has. *)
Theorem detail_not_found_iff (ctx : Ctx) (i : Z) (s : Store) :
  (detail_refused ctx i s <->
   detail ctx i s = (Err (TRPCError NOT_FOUND (Some (not_found_message i))), s)) /\
  (~ detail_refused ctx i s <->
   exists p, post_findUnique i s = Some p /\
             detail ctx i s = (Ok (select_detail s p), s)) /\
  (forall ctx' s' p,
     post_findUnique i s = None ->
     post_findUnique i s' = Some p ->
     hidden p = true -> authorId p <> session_user_id ctx' ->
     isUserAdmin ctx' = false ->
     fst (detail ctx' i s') = fst (detail ctx i s)).
Proof.
  rewrite detail_cases. unfold detail_refused.
  split; [|split].
  - destruct (post_findUnique i s) as [p|]; [|tauto].
    rewrite <- (refused_test ctx p).
    destruct (hidden p && negb (str_eqb (authorId p) (session_user_id ctx))
              && negb (isUserAdmin ctx));
      split; intros Hx; (reflexivity || discriminate).
  - destruct (post_findUnique i s) as [p|].
    + rewrite <- (refused_test ctx p).
      destruct (hidden p && negb (str_eqb (authorId p) (session_user_id ctx))
                && negb (isUserAdmin ctx)); split.
      * intros Hn. now destruct Hn.
      * intros (q & _ & Hq). discriminate.
      * intros _. now exists p.
      * discriminate.
    + split; [tauto|]. intros (q & Hq & _). discriminate.
  - intros ctx' s' p Hnone Hsome Hh Ha Hadm.
    rewrite detail_cases, Hnone, Hsome, Hh, Hadm.
    apply str_eqb_neq in Ha. rewrite Ha. reflexivity.
Qed.

(** *** edit and delete *)

Lemma belongs_to_false (ctx : Ctx) (post : option Post) :
  match post with
  | Some p => authorId p <> session_user_id ctx
  | None => True
  end ->
  belongs_to ctx post = false.
Proof.
  destruct post as [p|]; simpl; [|reflexivity].
  intros Hp. now apply str_eqb_neq.
Qed.

(** C3.  On valid input, [edit] and [delete] throw [FORBIDDEN] whenever the
    caller is not the author of the post, also when no post has the id; the
    store, and with it the post's title, content and [contentHtml], is then
    left as it was. *)
Theorem edit_delete_forbidden (ctx : Ctx) (i : Z) (data : EditData) (s : Store) :
  data_title data <> [] -> data_content data <> [] ->
  match post_findUnique i s with
  | Some p => authorId p <> session_user_id ctx
  | None => True
  end ->
  edit ctx i data s = (Err (TRPCError FORBIDDEN None), s) /\
  delete ctx i s = (Err (TRPCError FORBIDDEN None), s) /\
  post_findUnique i (snd (edit ctx i data s)) = post_findUnique i s.
Proof.
  intros Ht Hc Hnot.
  apply (belongs_to_false ctx) in Hnot.
  assert (He : edit ctx i data s = (Err (TRPCError FORBIDDEN None), s)).
  { unfold edit.
    destruct (data_title data); [contradiction|].
    destruct (data_content data); [contradiction|]. simpl.
    unfold bind, gets, throw. now rewrite Hnot. }
  repeat apply conj.
  - exact He.
  - unfold delete, bind, gets, throw. now rewrite Hnot.
  - now rewrite He.
Qed.

(** *** search *)

Lemma where_matches_search (query : jsstring) (p : Post) :
  where_matches {| where_hidden := Some false; where_authorId := None;
                   where_title_search := Some query;
                   where_content_search := Some query |} p
  = search_keeps query p.
Proof.
  unfold where_matches, search_keeps. simpl.
  destruct (hidden p); simpl; [reflexivity|]. reflexivity.
Qed.

(** C4, as the code has it.  [search] with a non-empty query returns, for
    every caller alike, the id and title of the first ten posts, in storage
    order, that are not hidden and match the query in the store's full-text
    search: at most ten hits, every hit a matching post that is not hidden,
    and every such post a hit when there are at most ten of them. *)
Theorem search_first_ten_matches (ctx : Ctx) (query : jsstring) (s : Store) :
  query <> [] ->
  search ctx query s =
    (Ok (map select_hit (firstn 10 (filter (search_keeps query) (posts s)))), s) /\
  (length (map select_hit (firstn 10 (filter (search_keeps query) (posts s)))) <= 10)%nat /\
  (forall h,
     In h (map select_hit (firstn 10 (filter (search_keeps query) (posts s)))) ->
     exists p, In p (posts s) /\ h = select_hit p /\ hidden p = false /\
               fulltext_match (Some query) (Some query) (title p) (content p) = true) /\
  ((length (filter (search_keeps query) (posts s)) <= 10)%nat ->
   forall p, In p (posts s) -> hidden p = false ->
             fulltext_match (Some query) (Some query) (title p) (content p) = true ->
             In (select_hit p)
               (map select_hit (firstn 10 (filter (search_keeps query) (posts s))))).
Proof.
  intros Hq. repeat apply conj.
  - assert (Hlen : (length query <? 1)%nat = false)
      by (destruct query; [contradiction|reflexivity]).
    unfold search. rewrite Hlen.
    unfold gets, post_findMany. simpl.
    now rewrite (filter_ext _ _ (where_matches_search query)).
  - rewrite length_map. apply firstn_le_length.
  - intros h Hh. apply in_map_iff in Hh. destruct Hh as (p & <- & Hp).
    assert (Hin : In p (filter (search_keeps query) (posts s))).
    { rewrite <- (firstn_skipn 10). apply in_or_app. now left. }
    apply filter_In in Hin. destruct Hin as [Hin Hkeep].
    unfold search_keeps in Hkeep. apply andb_true_iff in Hkeep.
    destruct Hkeep as [Hh Hm]. apply negb_true_iff in Hh.
    exists p. auto.
  - intros Hlen p Hin Hh Hm. apply in_map.
    rewrite firstn_all2 by assumption.
    apply filter_In. split; [assumption|].
    unfold search_keeps. now rewrite Hh, Hm.
Qed.

(** *** add *)

Ltac case_slack :=
  match goal with
  | |- context [@postToSlackIfEnabled ?c ?p ?n] =>
      let Hs := fresh "Hslack" in
      destruct (@postToSlackIfEnabled c p n) eqn:Hs
  end.

Lemma nonempty_length (a : jsstring) : a <> [] -> (length a <? 1)%nat = false.
Proof. destruct a; [contradiction|reflexivity]. Qed.

Lemma add_cases (ctx : Ctx) (title_ content_ : jsstring) (s : Store) :
  title_ <> [] -> content_ <> [] ->
  add ctx title_ content_ s =
    let p := {| id := nextPostId s; title := title_; content := content_;
                contentHtml := markdownToHtml content_; createdAt := clock s;
                hidden := false; authorId := session_user_id ctx |} in
    let s' := {| posts := posts s ++ [p]; users := users s;
                 comments := comments s; likedPosts := likedPosts s;
                 nextPostId := nextPostId s + 1; clock := clock s |} in
    match postToSlackIfEnabled p (session_user_name ctx) with
    | None => (Ok p, s')
    | Some reason => (Err (SlackError reason), s')
    end.
Proof.
  intros Ht Hc. unfold add.
  rewrite (nonempty_length _ Ht), (nonempty_length _ Hc). simpl.
  unfold bind, post_create, await_slack. simpl.
  case_slack; reflexivity.
Qed.

(** C7, as the code has it.  A valid [add] first persists the new post,
    owned by the caller, and then awaits the notifier: when the notifier
    resolves the created post is returned, and when it rejects the call
    throws the notifier's error; the post stays persisted either way. *)
Theorem add_persists_then_awaits_notifier (ctx : Ctx) (title_ content_ : jsstring)
    (s : Store) :
  title_ <> [] -> content_ <> [] ->
  exists p,
    (id p = nextPostId s /\ title p = title_ /\ content p = content_ /\
     hidden p = false /\ authorId p = session_user_id ctx) /\
    posts (snd (add ctx title_ content_ s)) = posts s ++ [p] /\
    (postToSlackIfEnabled p (session_user_name ctx) = None ->
     fst (add ctx title_ content_ s) = Ok p) /\
    (forall reason,
       postToSlackIfEnabled p (session_user_name ctx) = Some reason ->
       fst (add ctx title_ content_ s) = Err (SlackError reason)).
Proof.
  intros Ht Hc. rewrite (add_cases ctx _ _ s Ht Hc). cbv zeta.
  exists {| id := nextPostId s; title := title_; content := content_;
            contentHtml := markdownToHtml content_; createdAt := clock s;
            hidden := false; authorId := session_user_id ctx |}.
  split; [repeat split|].
  case_slack; simpl.
  - split; [reflexivity|]. split; [discriminate|].
    intros reason Hr. congruence.
  - split; [reflexivity|]. split; [reflexivity|]. discriminate.
Qed.

(** *** The rendering invariant *)

Lemma find_snoc_fresh (i : Z) (l : list Post) (x : Post) :
  (forall q, In q l -> id q <> i) -> id x = i ->
  find (fun p => id p =? i) (l ++ [x]) = Some x.
Proof.
  intros Hf Hx. induction l as [|y l IH]; simpl.
  - now rewrite Hx, Z.eqb_refl.
  - destruct (id y =? i) eqn:Hy.
    + apply Z.eqb_eq in Hy. now destruct (Hf y (or_introl eq_refl)).
    + apply IH. intros q Hq. apply Hf. now right.
Qed.

Lemma find_after_update (i : Z) (data : Post -> Post) (l : list Post) :
  (forall r, id (data r) = id r) ->
  find (fun p => id p =? i) (map (fun r => if id r =? i then data r else r) l)
  = option_map data (find (fun p => id p =? i) l).
Proof.
  intros Hid. induction l as [|x l IH]; simpl; [reflexivity|].
  destruct (id x =? i) eqn:Hx.
  - now rewrite Hid, Hx.
  - now rewrite Hx.
Qed.

Lemma edit_cases (ctx : Ctx) (i : Z) (data : EditData) (s : Store) (p0 : Post) :
  data_title data <> [] -> data_content data <> [] ->
  post_findUnique i s = Some p0 -> authorId p0 = session_user_id ctx ->
  let upd := fun p =>
    {| id := id p; title := data_title data; content := data_content data;
       contentHtml := markdownToHtml (data_content data);
       createdAt := createdAt p; hidden := hidden p; authorId := authorId p |} in
  edit ctx i data s =
    (Ok (upd p0),
     set_posts (map (fun r => if id r =? i then upd r else r) (posts s)) s).
Proof.
  intros Ht Hc Hfind Hauth upd. unfold edit.
  rewrite (nonempty_length _ Ht), (nonempty_length _ Hc). simpl.
  unfold bind, gets, post_update, ret. rewrite Hfind. simpl.
  rewrite Hauth, str_eqb_refl. simpl. rewrite Hfind. reflexivity.
Qed.

Lemma post_update_rendered (i : Z) (data : Post -> Post) (s : Store) :
  (forall r, contentHtml r = markdownToHtml (content r) ->
             contentHtml (data r) = markdownToHtml (content (data r))) ->
  rendered s -> rendered (snd (post_update i data s)).
Proof.
  intros Hdata Hs. unfold post_update.
  destruct (post_findUnique i s); [|assumption].
  unfold rendered in *. simpl. apply Forall_map.
  eapply Forall_impl; [|exact Hs]. intros r Hr. simpl.
  destruct (id r =? i); auto.
Qed.

Lemma store_after_rendered (ctx : Ctx) (call : Call) (s : Store) :
  rendered s -> rendered (store_after ctx call s).
Proof.
  intros Hs. destruct call as [input|i|q|t c|i d|i|i|i|i|i]; simpl.
  - unfold feed. now destruct (negb (feed_input_ok input)).
  - rewrite detail_cases. destruct (post_findUnique i s) as [p|]; [|assumption].
    now destruct (_ && _).
  - unfold search. now destruct (length q <? 1)%nat.
  - unfold add. destruct (_ || _); [assumption|].
    unfold bind, post_create, await_slack. simpl.
    assert (Hs' : Forall (fun p => contentHtml p = markdownToHtml (content p))
                    (posts s ++ [{| id := nextPostId s; title := t; content := c;
                                    contentHtml := markdownToHtml c;
                                    createdAt := clock s; hidden := false;
                                    authorId := session_user_id ctx |}])).
    { apply Forall_app. split; [assumption|]. now constructor. }
    now case_slack.
  - unfold edit. destruct (_ || _); [assumption|].
    unfold bind, gets, throw. simpl.
    destruct (negb (belongs_to ctx (post_findUnique i s))); [assumption|].
    set (upd := fun p : Post => _).
    pose proof (post_update_rendered i upd s (fun r _ => eq_refl) Hs) as Hu.
    now destruct (post_update i upd s) as [[p|e] s'].
  - unfold delete, bind, gets, throw. simpl.
    destruct (negb (belongs_to ctx (post_findUnique i s))); [assumption|].
    unfold post_delete. destruct (post_findUnique i s); [|assumption].
    simpl. unfold rendered in *. simpl.
    apply Forall_forall. intros r Hr. apply filter_In in Hr.
    destruct Hr as [Hr _]. revert r Hr. now apply Forall_forall.
  - unfold like, bind, likedPosts_create.
    destruct (post_findUnique i s); [|assumption].
    now destruct (existsb _ _).
  - unfold unlike, bind, likedPosts_delete. now destruct (existsb _ _).
  - unfold hide. destruct (negb (isUserAdmin ctx)); [assumption|].
    unfold bind.
    pose proof (post_update_rendered i (set_hidden true) s (fun r Hr => Hr) Hs) as Hu.
    now destruct (post_update i (set_hidden true) s) as [[p|e] s'].
  - unfold unhide. destruct (negb (isUserAdmin ctx)); [assumption|].
    unfold bind.
    pose proof (post_update_rendered i (set_hidden false) s (fun r Hr => Hr) Hs) as Hu.
    now destruct (post_update i (set_hidden false) s) as [[p|e] s'].
Qed.

(** C5.  A valid [add] persists a post whose [contentHtml] is
    [markdownToHtml] of its content, and a valid [edit] by the author leaves
    the post with the new title, the new content and [contentHtml] equal to
    [markdownToHtml] of the new content.  No procedure of the router sets
    [contentHtml] otherwise: whatever the call, if every stored post's
    [contentHtml] is the rendering of its content before, it is so after. *)
Theorem contentHtml_rendered_on_write :
  (forall ctx title_ content_ s,
     title_ <> [] -> content_ <> [] ->
     exists p,
       posts (snd (add ctx title_ content_ s)) = posts s ++ [p] /\
       content p = content_ /\
       contentHtml p = markdownToHtml content_ /\
       (postToSlackIfEnabled p (session_user_name ctx) = None ->
        fst (add ctx title_ content_ s) = Ok p) /\
       ((forall q, In q (posts s) -> id q <> nextPostId s) ->
        post_findUnique (id p) (snd (add ctx title_ content_ s)) = Some p)) /\
  (forall ctx i data s p0,
     data_title data <> [] -> data_content data <> [] ->
     post_findUnique i s = Some p0 -> authorId p0 = session_user_id ctx ->
     exists p,
       fst (edit ctx i data s) = Ok p /\
       post_findUnique i (snd (edit ctx i data s)) = Some p /\
       title p = data_title data /\
       content p = data_content data /\
       contentHtml p = markdownToHtml (data_content data)) /\
  (forall ctx call s, rendered s -> rendered (store_after ctx call s)).
Proof.
  split; [|split].
  - intros ctx t c s Ht Hc. rewrite (add_cases ctx _ _ s Ht Hc). cbv zeta.
    exists {| id := nextPostId s; title := t; content := c;
              contentHtml := markdownToHtml c; createdAt := clock s;
              hidden := false; authorId := session_user_id ctx |}.
    assert (Hfind : (forall q, In q (posts s) -> id q <> nextPostId s) ->
              find (fun p => id p =? nextPostId s)
                (posts s ++ [{| id := nextPostId s; title := t; content := c;
                                contentHtml := markdownToHtml c;
                                createdAt := clock s; hidden := false;
                                authorId := session_user_id ctx |}])
              = Some {| id := nextPostId s; title := t; content := c;
                        contentHtml := markdownToHtml c; createdAt := clock s;
                        hidden := false; authorId := session_user_id ctx |}).
    { intros Hfresh. now apply find_snoc_fresh. }
    case_slack; simpl; repeat (split; try reflexivity); try discriminate;
      exact Hfind.
  - intros ctx i data s p0 Ht Hc Hfind Hauth.
    rewrite (edit_cases ctx i data s p0 Ht Hc Hfind Hauth). cbv zeta. simpl.
    eexists. split; [reflexivity|]. split; [|repeat split].
    unfold post_findUnique in *. simpl.
    rewrite find_after_update by reflexivity. now rewrite Hfind.
  - apply store_after_rendered.
Qed.

End Router.

(** ** The procedures on sample stores *)

Import Samples.

(** C6 on a store of three posts, one hidden, for a caller who is not an
    admin and asks for one post after skipping one. *)
Lemma feed_page_and_count_sample :
  feed_input_ok (Some {| take := Some 1; skip := Some 1; feed_authorId := None |}) = true /\
  exists rows ordered,
    @feed substring_search_working_slack (ctx_of bob false)
      (Some {| take := Some 1; skip := Some 1; feed_authorId := None |})
      (store_of [sample_post 1 "first" 10 false alice;
                 sample_post 2 "second" 20 true alice;
                 sample_post 3 "third" 30 false bob]) =
      (Ok {| feed_posts :=
               map (select_feed
                      (store_of [sample_post 1 "first" 10 false alice;
                                 sample_post 2 "second" 20 true alice;
                                 sample_post 3 "third" 30 false bob])) rows;
             postCount := 2 |},
       store_of [sample_post 1 "first" 10 false alice;
                 sample_post 2 "second" 20 true alice;
                 sample_post 3 "third" 30 false bob]) /\
    Permutation ordered
      [sample_post 1 "first" 10 false alice; sample_post 3 "third" 30 false bob] /\
    StronglySorted (fun p q => createdAt q <= createdAt p) ordered /\
    rows = firstn 1 (skipn 1 ordered).
Proof.
  split; [reflexivity|].
  destruct (@feed_page_and_count substring_search_working_slack
              (ctx_of bob false)
              (Some {| take := Some 1; skip := Some 1; feed_authorId := None |})
              (store_of [sample_post 1 "first" 10 false alice;
                         sample_post 2 "second" 20 true alice;
                         sample_post 3 "third" 30 false bob])
              eq_refl)
    as (rows & ordered & Heq & Hperm & Hsorted & Hrows & _).
  exists rows, ordered. repeat split; assumption.
Defined.

(** C2 on a store whose post 1 is hidden and by alice: bob, who is not an
    admin, gets for post 1 the error he gets for post 7, which no post
    has; alice gets the post. *)
Lemma detail_not_found_sample :
  detail (ctx_of bob false) 1 (store_of [sample_post 1 "draft" 10 true alice]) =
    (Err (TRPCError NOT_FOUND (Some (lit "No post with id '1'"))),
     store_of [sample_post 1 "draft" 10 true alice]) /\
  fst (detail (ctx_of bob false) 1 (store_of [sample_post 1 "draft" 10 true alice])) =
    fst (detail (ctx_of bob false) 1 (store_of [])) /\
  exists p,
    detail (ctx_of alice false) 1 (store_of [sample_post 1 "draft" 10 true alice]) =
      (Ok p, store_of [sample_post 1 "draft" 10 true alice]).
Proof.
  pose proof (detail_not_found_iff (ctx_of bob false) 1
                (store_of [sample_post 1 "draft" 10 true alice])) as (Hr & _ & _).
  pose proof (detail_not_found_iff (ctx_of bob false) 1 (store_of []))
    as (_ & _ & Hsame).
  pose proof (detail_not_found_iff (ctx_of alice false) 1
                (store_of [sample_post 1 "draft" 10 true alice])) as (_ & Hok & _).
  split; [|split].
  - apply Hr. unfold detail_refused. simpl.
    repeat split. discriminate.
  - apply (Hsame (ctx_of bob false) _ (sample_post 1 "draft" 10 true alice));
      try reflexivity. discriminate.
  - destruct Hok as [Hok _].
    destruct Hok as (p & _ & Hp).
    + unfold detail_refused. simpl. intros (_ & Hne & _). now apply Hne.
    + now exists (select_detail (store_of [sample_post 1 "draft" 10 true alice]) p).
Defined.

(** C3 on a store whose post 1 is by alice: bob can neither edit nor delete
    it, nor post 7, which no post has. *)
Lemma edit_delete_forbidden_sample :
  (@edit plain_markdown (ctx_of bob false) 1 {| data_title := lit "mine"; data_content := lit "now" |}
     (store_of [sample_post 1 "hers" 10 false alice]) =
     (Err (TRPCError FORBIDDEN None), store_of [sample_post 1 "hers" 10 false alice]) /\
   delete (ctx_of bob false) 1 (store_of [sample_post 1 "hers" 10 false alice]) =
     (Err (TRPCError FORBIDDEN None), store_of [sample_post 1 "hers" 10 false alice]) /\
   post_findUnique 1
     (snd (@edit plain_markdown (ctx_of bob false) 1
             {| data_title := lit "mine"; data_content := lit "now" |}
             (store_of [sample_post 1 "hers" 10 false alice]))) =
     Some (sample_post 1 "hers" 10 false alice)) /\
  delete (ctx_of bob false) 7 (store_of [sample_post 1 "hers" 10 false alice]) =
    (Err (TRPCError FORBIDDEN None), store_of [sample_post 1 "hers" 10 false alice]).
Proof.
  split.
  - apply (@edit_delete_forbidden plain_markdown (ctx_of bob false) 1
             {| data_title := lit "mine"; data_content := lit "now" |}
             (store_of [sample_post 1 "hers" 10 false alice]));
      simpl; discriminate.
  - apply (@edit_delete_forbidden plain_markdown (ctx_of bob false) 7
             {| data_title := lit "mine"; data_content := lit "now" |}
             (store_of [sample_post 1 "hers" 10 false alice]));
      simpl; try discriminate. exact I.
Defined.

(** C4 on a store of two posts titled ["cat"], one of them hidden, and one
    titled ["dog"] with content ["cat"]: the hits for ["cat"] are the two
    posts that are not hidden, for an admin too. *)
Lemma search_first_ten_matches_sample :
  lit "cat" <> [] /\
  @search substring_search_working_slack (ctx_of bob true) (lit "cat")
    (store_of [sample_post 1 "cat" 10 false alice;
               sample_post 2 "cat" 20 true alice;
               sample_post 3 "dog" 30 false bob]) =
    (Ok [{| hit_id := 1; hit_title := lit "cat" |};
         {| hit_id := 3; hit_title := lit "dog" |}],
     store_of [sample_post 1 "cat" 10 false alice;
               sample_post 2 "cat" 20 true alice;
               sample_post 3 "dog" 30 false bob]).
Proof.
  split; [discriminate|].
  apply (@search_first_ten_matches substring_search_working_slack
           (ctx_of bob true) (lit "cat")
           (store_of [sample_post 1 "cat" 10 false alice;
                      sample_post 2 "cat" 20 true alice;
                      sample_post 3 "dog" 30 false bob])).
  discriminate.
Defined.

(** C4 as stated fails when more than ten posts match: of eleven posts
    titled ["cat"], none hidden, the eleventh matches the query ["cat"] and
    is not among the hits. *)
Lemma search_drops_the_eleventh_match :
  @search substring_search_working_slack (ctx_of bob false) (lit "cat")
    (store_of eleven_cats) =
    (Ok (map select_hit (firstn 10 eleven_cats)), store_of eleven_cats) /\
  In (sample_post 11 "cat" 11 false alice) (posts (store_of eleven_cats)) /\
  hidden (sample_post 11 "cat" 11 false alice) = false /\
  @fulltext_match substring_search_working_slack
    (Some (lit "cat")) (Some (lit "cat"))
    (title (sample_post 11 "cat" 11 false alice))
    (content (sample_post 11 "cat" 11 false alice)) = true /\
  ~ In (select_hit (sample_post 11 "cat" 11 false alice))
      (map select_hit (firstn 10 eleven_cats)).
Proof.
  split; [reflexivity|]. split.
  - simpl. do 10 right. now left.
  - split; [reflexivity|]. split; [reflexivity|].
    simpl. intros Hin.
    repeat (destruct Hin as [Hin|Hin]; [discriminate|]). exact Hin.
Qed.

(** C5 with the sample renderer: the post [add] persists for the content
    ["hello"] has [contentHtml] ["<p>hello</p>"], and so has the post after
    an [edit] to that content. *)
Lemma contentHtml_rendered_on_write_sample :
  (exists p,
     posts (snd (@add plain_markdown substring_search_working_slack
                   (ctx_of alice false) (lit "T") (lit "hello") empty_store)) = [p] /\
     contentHtml p = lit "<p>hello</p>") /\
  (exists p,
     post_findUnique 1
       (snd (@edit plain_markdown (ctx_of alice false) 1
               {| data_title := lit "T"; data_content := lit "hello" |}
               (store_of [sample_post 1 "cat" 10 false alice]))) = Some p /\
     contentHtml p = lit "<p>hello</p>").
Proof.
  destruct (@contentHtml_rendered_on_write plain_markdown
              substring_search_working_slack) as (Hadd & Hedit & _).
  split.
  - destruct (Hadd (ctx_of alice false) (lit "T") (lit "hello") empty_store)
      as (p & Hp & _ & Hh & _); try discriminate.
    exists p. split; [exact Hp|]. rewrite Hh. reflexivity.
  - destruct (Hedit (ctx_of alice false) 1
                {| data_title := lit "T"; data_content := lit "hello" |}
                (store_of [sample_post 1 "cat" 10 false alice])
                (sample_post 1 "cat" 10 false alice))
      as (p & _ & Hp & _ & _ & Hh); try discriminate; try reflexivity.
    exists p. split; [exact Hp|]. rewrite Hh. reflexivity.
Defined.

(** C7 with a notifier that resolves: [add] returns the created post. *)
Lemma add_persists_then_awaits_notifier_sample :
  lit "T" <> [] /\ lit "hello" <> [] /\
  exists p,
    posts (snd (@add plain_markdown substring_search_working_slack
                  (ctx_of alice false) (lit "T") (lit "hello") empty_store)) = [p] /\
    fst (@add plain_markdown substring_search_working_slack
           (ctx_of alice false) (lit "T") (lit "hello") empty_store) = Ok p.
Proof.
  split; [discriminate|]. split; [discriminate|].
  destruct (@add_persists_then_awaits_notifier plain_markdown
              substring_search_working_slack (ctx_of alice false)
              (lit "T") (lit "hello") empty_store)
    as (p & _ & Hp & Hok & _); try discriminate.
  exists p. split; [exact Hp|]. apply Hok. reflexivity.
Defined.

(** C7 as stated fails when the notifier rejects: [add] then throws the
    notifier's error instead of returning the post, which it has
    persisted. *)
Lemma add_fails_when_notifier_rejects :
  fst (@add plain_markdown substring_search_failing_slack
         (ctx_of alice false) (lit "T") (lit "hello") empty_store) =
    Err (SlackError (lit "fetch failed")) /\
  posts (snd (@add plain_markdown substring_search_failing_slack
                (ctx_of alice false) (lit "T") (lit "hello") empty_store)) =
    [{| id := 1; title := lit "T"; content := lit "hello";
        contentHtml := lit "<p>hello</p>"; createdAt := 1000; hidden := false;
        authorId := alice |}].
Proof. split; reflexivity. Qed.

(** * Further properties of the editor utilities *)

(** X1.  Trigger detection reads only the text before the caret: whatever
    follows the caret, the result is that of the text before it with the
    caret at its end. *)
Theorem getSuggestionData_ignores_text_after_caret (before after : jsstring) :
  getSuggestionData {| value := before ++ after; selectionStart := length before |}
  = getSuggestionData (caret_at_end before).
Proof.
  unfold getSuggestionData, caret_at_end. cbn [value selectionStart].
  rewrite !slice_prefix.
  rewrite firstn_app, Nat.sub_diag, firstn_all. simpl firstn.
  now rewrite app_nil_r.
Qed.

(** X2.  The trigger index is never the fallback -1: it lies between 0 and
    the caret (clamped to the text).  The query is the text from the index
    after the trigger index up to the caret, and it never contains white
    space.  When a trigger is reported, the text holds [@] or [:] at the
    trigger index, so the query is all of the text between that character
    and the caret. *)
Theorem getSuggestionData_bounds (ta : HTMLTextAreaElement) :
  0 <= triggerIdx (getSuggestionData ta)
    <= Z.of_nat (Nat.min (selectionStart ta) (length (value ta))) /\
  query (getSuggestionData ta) =
    slice (value ta) (triggerIdx (getSuggestionData ta) + 1)
      (Some (Z.of_nat (selectionStart ta))) /\
  Forall (fun c => is_whitespace c = false) (query (getSuggestionData ta)) /\
  (keystrokeTriggered (getSuggestionData ta) = true ->
   (char_at (value ta) (triggerIdx (getSuggestionData ta)) = Some (char "@") \/
    char_at (value ta) (triggerIdx (getSuggestionData ta)) = Some (char ":")) /\
   Z.of_nat (length (query (getSuggestionData ta))) =
     Z.of_nat (Nat.min (selectionStart ta) (length (value ta)))
     - triggerIdx (getSuggestionData ta) - 1).
Proof.
  destruct (getSuggestionData_word ta) as (pre & word & Htb & Hw & _ & Hd).
  rewrite Hd. cbn [triggerIdx query keystrokeTriggered].
  assert (Hlen : length (pre ++ word) = Nat.min (selectionStart ta) (length (value ta)))
    by (rewrite <- Htb; apply length_firstn).
  rewrite length_app in Hlen.
  split; [lia|]. split; [|split].
  - replace (Z.of_nat (length pre) + 1) with (Z.of_nat (S (length pre))) by lia.
    rewrite slice_between, Htb, skipn_app.
    rewrite (skipn_all2 (n := S (length pre))) by lia.
    replace (S (length pre) - length pre)%nat with 1%nat by lia.
    now destruct word.
  - destruct word; [constructor|]. simpl. now inversion Hw.
  - intros Hk. destruct word as [|c word]; [discriminate|].
    simpl in Hk, Hlen. simpl tl.
    assert (Hc : char_at (value ta) (Z.of_nat (length pre)) = Some c).
    { unfold char_at.
      replace (Z.of_nat (length pre) <? 0) with false by (symmetry; apply Z.ltb_ge; lia).
      rewrite Nat2Z.id.
      assert (Hn : nth_error (firstn (selectionStart ta) (value ta)) (length pre) = Some c).
      { rewrite Htb, nth_error_app2 by lia. now rewrite Nat.sub_diag. }
      rewrite nth_error_firstn in Hn.
      destruct (length pre <? selectionStart ta)%nat; [assumption|discriminate]. }
    rewrite Hc. split; [|lia].
    apply orb_true_iff in Hk. destruct Hk as [Hk|Hk]; apply N.eqb_eq in Hk;
      subst c; auto.
Qed.

(** X2 at ["hi :sm rest"] with the caret after ["sm"]. *)
Lemma getSuggestionData_bounds_sample :
  keystrokeTriggered
    (getSuggestionData {| value := lit "hi :sm rest"; selectionStart := 6 |}) = true /\
  char_at (lit "hi :sm rest")
    (triggerIdx (getSuggestionData {| value := lit "hi :sm rest"; selectionStart := 6 |}))
    = Some (char ":") /\
  query (getSuggestionData {| value := lit "hi :sm rest"; selectionStart := 6 |})
    = lit "sm" /\
  Z.of_nat (length (query (getSuggestionData
                             {| value := lit "hi :sm rest"; selectionStart := 6 |}))) = 2.
Proof.
  destruct (getSuggestionData_bounds
              {| value := lit "hi :sm rest"; selectionStart := 6 |})
    as (_ & Hslice & _ & Ht).
  destruct (Ht eq_refl) as [_ Hq].
  split; [reflexivity|]. split; [reflexivity|].
  split; [rewrite Hslice; reflexivity|]. rewrite Hq. reflexivity.
Defined.

Lemma indexOf_absent (pat s : jsstring) :
  (forall pre post, s <> pre ++ pat ++ post) -> indexOf pat s = None.
Proof.
  induction s as [|x r IH]; intros Habs; simpl indexOf.
  - destruct (starts_with [] pat) eqn:Hsw; [|reflexivity].
    apply starts_with_prefix in Hsw. destruct Hsw as [post Hp].
    now destruct (Habs [] post).
  - destruct (starts_with (x :: r) pat) eqn:Hsw.
    + apply starts_with_prefix in Hsw. destruct Hsw as [post Hp].
      now destruct (Habs [] post).
    + rewrite IH; [reflexivity|]. intros pre post Hr.
      apply (Habs (x :: pre) post). simpl. now rewrite Hr.
Qed.

(** X3.  When the placeholder of a file no longer occurs in the text, the
    settling of its upload leaves the text as it is, whether the upload
    succeeded or failed: no image tag is inserted. *)
Theorem upload_settled_without_placeholder (file : File) (outcome : UploadOutcome)
    (st : EditorState) :
  (forall pre post, text st <> pre ++ placeholder_of file ++ post) ->
  text (upload_settled file outcome st) = text st.
Proof.
  intros Habs. apply indexOf_absent in Habs.
  destruct outcome; simpl; unfold replace; now rewrite Habs.
Qed.

(** X3 on the text ["done"], which holds no placeholder. *)
Lemma upload_settled_without_placeholder_sample :
  text (upload_settled {| name := lit "cat.png" |}
          (Uploaded {| url := lit "u"; width := 10;
                       originalFilename := lit "cat.png"; dpi := None |})
          {| text := lit "done"; toasts := []; console := [] |}) = lit "done".
Proof.
  apply (upload_settled_without_placeholder {| name := lit "cat.png" |}
           (Uploaded {| url := lit "u"; width := 10;
                        originalFilename := lit "cat.png"; dpi := None |})
           {| text := lit "done"; toasts := []; console := [] |}).
  intros pre post Heq. apply (f_equal (@length _)) in Heq.
  rewrite !length_app in Heq. simpl in Heq. lia.
Defined.

Section UploadSchedule.
Context `{CursorLib}.

Lemma started_toasts (lineNumber : nat) (files : list File) (st : EditorState) :
  toasts (fold_left (fun st file => upload_started lineNumber file st) files st)
  = toasts st.
Proof.
  revert st. induction files as [|f files IH]; intros st; simpl; [reflexivity|].
  now rewrite IH.
Qed.

Lemma settled_toasts (files : list File) (settlements : list (nat * UploadOutcome))
    (st : EditorState) :
  toasts
    (fold_left
       (fun st settlement =>
          match nth_error files (fst settlement) with
          | Some file => upload_settled file (snd settlement) st
          | None => st
          end)
       settlements st)
  = toasts st
    ++ flat_map
         (fun settlement =>
            match nth_error files (fst settlement), snd settlement with
            | Some _, UploadFailed message =>
                [lit "Error uploading image: " ++ message]
            | _, _ => []
            end)
         settlements.
Proof.
  revert st. induction settlements as [|[i o] l IH]; intros st; simpl.
  - now rewrite app_nil_r.
  - rewrite IH. destruct (nth_error files i) as [f|]; [|reflexivity].
    destruct o; simpl; [reflexivity|]. now rewrite <- app_assoc.
Qed.

(** X4.  Whatever the order in which the uploads settle, the handler shows
    exactly one error toast per failed upload, in the order of the failures
    and carrying each failure's message; a successful upload shows none. *)
Theorem upload_toasts_are_the_failures (textareaEl : HTMLTextAreaElement)
    (files : list File) (settlements : list (nat * UploadOutcome)) :
  toasts (uploadImageCommandHandler textareaEl files settlements)
  = flat_map
      (fun settlement =>
         match nth_error files (fst settlement), snd settlement with
         | Some _, UploadFailed message =>
             [lit "Error uploading image: " ++ message]
         | _, _ => []
         end)
      settlements.
Proof.
  unfold uploadImageCommandHandler.
  rewrite settled_toasts, started_toasts. reflexivity.
Qed.

End UploadSchedule.

(** * Further properties of the post router *)

Lemma find_update_other (i j : Z) (data : Post -> Post) (l : list Post) :
  (forall r, id (data r) = id r) -> j <> i ->
  find (fun p => id p =? j) (map (fun r => if id r =? i then data r else r) l)
  = find (fun p => id p =? j) l.
Proof.
  intros Hid Hji. induction l as [|x l IH]; simpl; [reflexivity|].
  destruct (id x =? i) eqn:Hx.
  - rewrite Hid. apply Z.eqb_eq in Hx.
    replace (id x =? j) with false by (symmetry; apply Z.eqb_neq; lia).
    exact IH.
  - destruct (id x =? j); [reflexivity|exact IH].
Qed.

Lemma find_removed (i : Z) (l : list Post) :
  find (fun p => id p =? i) (filter (fun r => negb (id r =? i)) l) = None.
Proof.
  induction l as [|x l IH]; simpl; [reflexivity|].
  destruct (id x =? i) eqn:Hx; simpl; [exact IH|]. now rewrite Hx.
Qed.

Lemma find_remove_other (i j : Z) (l : list Post) :
  j <> i ->
  find (fun p => id p =? j) (filter (fun r => negb (id r =? i)) l)
  = find (fun p => id p =? j) l.
Proof.
  intros Hji. induction l as [|x l IH]; simpl; [reflexivity|].
  destruct (id x =? i) eqn:Hx; simpl.
  - apply Z.eqb_eq in Hx.
    replace (id x =? j) with false by (symmetry; apply Z.eqb_neq; lia).
    exact IH.
  - destruct (id x =? j); [reflexivity|exact IH].
Qed.

Lemma found_has_id (i : Z) (s : Store) (p : Post) :
  post_findUnique i s = Some p -> id p = i /\ In p (posts s).
Proof.
  intros Hf. apply find_some in Hf. destruct Hf as [Hin Hid].
  apply Z.eqb_eq in Hid. now split.
Qed.

Lemma filter_length_mono {A} (f g : A -> bool) (l : list A) :
  (forall x, f x = true -> g x = true) ->
  (length (filter f l) <= length (filter g l))%nat.
Proof.
  intros Hfg. induction l as [|x l IH]; simpl; [lia|].
  destruct (f x) eqn:Hf.
  - rewrite (Hfg x Hf). simpl. lia.
  - destruct (g x); simpl; lia.
Qed.

Section RouterExtras.
Context `{MarkdownLibs} `{Collaborators}.

Lemma feed_value (ctx : Ctx) (input : option FeedInput) (s : Store) :
  feed_input_ok input = true ->
  feed ctx input s =
    (Ok {| feed_posts :=
             map (select_feed s)
               (firstn (feed_take input)
                  (skipn (feed_skip input)
                     (sort_by
                        (fun p q => createdAt_le desc (createdAt p) (createdAt q))
                        (filter (feed_keeps ctx input) (posts s)))));
           postCount :=
             Z.of_nat (length (filter (feed_keeps ctx input) (posts s))) |},
     s).
Proof.
  intros Hok. unfold feed. rewrite Hok. simpl.
  unfold bind, gets, ret, post_findMany, post_count. simpl.
  rewrite (filter_ext _ _ (where_matches_feed ctx input)).
  unfold feed_take, feed_skip.
  destruct input as [[[t|] [k|] a]|]; reflexivity.
Qed.

(** X5.  The three queries only read: whatever the input, valid or not,
    [feed], [detail] and [search] leave the store exactly as it was. *)
Theorem queries_leave_the_store (ctx : Ctx) (input : option FeedInput) (i : Z)
    (q : jsstring) (s : Store) :
  snd (feed ctx input s) = s /\
  snd (detail ctx i s) = s /\
  snd (search ctx q s) = s.
Proof.
  split; [|split].
  - unfold feed. now destruct (negb (feed_input_ok input)).
  - rewrite detail_cases. destruct (post_findUnique i s) as [p|]; [|reflexivity].
    now destruct (_ && _).
  - unfold search. now destruct (length q <? 1)%nat.
Qed.

(** X6.  A valid [feed] call returns at most [take] posts, hence never
    more than 50, and never more posts than it counts. *)
Theorem feed_page_is_bounded (ctx : Ctx) (input : option FeedInput) (s : Store) :
  feed_input_ok input = true ->
  exists r,
    feed ctx input s = (Ok r, s) /\
    (length (feed_posts r) <= feed_take input <= 50)%nat /\
    Z.of_nat (length (feed_posts r)) <= postCount r.
Proof.
  intros Hok. rewrite (feed_value ctx input s Hok).
  eexists. split; [reflexivity|]. cbn [feed_posts postCount].
  rewrite length_map.
  set (kept := filter (feed_keeps ctx input) (posts s)).
  set (ordered := sort_by _ kept).
  assert (Hlen : length ordered = length kept)
    by (apply Permutation_length, sort_by_perm).
  pose proof (firstn_le_length (feed_take input) (skipn (feed_skip input) ordered)) as H1.
  pose proof (firstn_length_le_and_skipn := length_skipn (feed_skip input) ordered).
  rewrite length_firstn.
  assert (Htake : (feed_take input <= 50)%nat).
  { unfold feed_take. destruct input as [[[t|] k a]|]; try lia.
    simpl in Hok. apply andb_true_iff in Hok. destruct Hok as [Hok _].
    apply andb_true_iff in Hok. destruct Hok as [_ Hok].
    apply Z.leb_le in Hok. lia. }
  rewrite length_skipn in *. lia.
Qed.

(** X7.  Input the schemas reject never reaches the store: [feed] with
    [take] outside 1..50 or [skip] below 1, [search] with an empty query,
    and [add] or [edit] with an empty title or content all fail and leave
    the store as it was; [edit] does so even for the author of the post. *)
Theorem rejected_input_writes_nothing (ctx : Ctx) (s : Store) :
  (forall t k a, t < 1 \/ 50 < t ->
     exists e, feed ctx (Some {| take := Some t; skip := k; feed_authorId := a |}) s
               = (Err e, s)) /\
  (forall t k a, k < 1 ->
     exists e, feed ctx (Some {| take := t; skip := Some k; feed_authorId := a |}) s
               = (Err e, s)) /\
  (exists e, search ctx [] s = (Err e, s)) /\
  (forall title_ content_, title_ = [] \/ content_ = [] ->
     exists e, add ctx title_ content_ s = (Err e, s)) /\
  (forall i data, data_title data = [] \/ data_content data = [] ->
     exists e, edit ctx i data s = (Err e, s)).
Proof.
  repeat apply conj.
  - intros t k a Ht. unfold feed, feed_input_ok, in_range. cbn [take skip].
    replace ((1 <=? t) && (t <=? 50)) with false; [now eexists|].
    symmetry. apply andb_false_iff. rewrite !Z.leb_gt. lia.
  - intros t k a Hk. unfold feed, feed_input_ok. cbn [take skip].
    replace (in_range 1 None (Some k)) with false.
    + rewrite andb_false_r. now eexists.
    + symmetry. unfold in_range. rewrite andb_true_r. apply Z.leb_gt. lia.
  - now eexists.
  - intros t c [-> | ->]; unfold add; simpl; [now eexists|].
    rewrite orb_true_r. now eexists.
  - intros i data [Hd | Hd]; unfold edit; rewrite Hd; simpl; [now eexists|].
    rewrite orb_true_r. now eexists.
Qed.

(** X8.  Under the same input an admin's [feed] counts at least as many
    posts as anyone else's, and with no author filter it counts every post
    of the store. *)
Theorem feed_admin_counts_all (user : UserId) (user_name : option jsstring)
    (input : option FeedInput) (s : Store) :
  feed_input_ok input = true ->
  exists r_admin r_other,
    fst (feed {| session_user_id := user; session_user_name := user_name;
                 isUserAdmin := true |} input s) = Ok r_admin /\
    fst (feed {| session_user_id := user; session_user_name := user_name;
                 isUserAdmin := false |} input s) = Ok r_other /\
    postCount r_other <= postCount r_admin /\
    (match input with
     | Some i => feed_authorId i = None
     | None => True
     end ->
     postCount r_admin = Z.of_nat (length (posts s))).
Proof.
  intros Hok. rewrite !(feed_value _ input s Hok).
  eexists. eexists. split; [reflexivity|]. split; [reflexivity|].
  cbn [postCount]. split.
  - apply Nat2Z.inj_le. apply filter_length_mono.
    intros p. unfold feed_keeps. cbn [isUserAdmin]. simpl.
    intros Hp. apply andb_true_iff in Hp. now destruct Hp as [_ ->].
  - intros Hno. f_equal. f_equal.
    rewrite <- (filter_ext (fun _ => true)).
    + clear. induction (posts s) as [|x l IH]; simpl; [reflexivity|]. now rewrite IH.
    + intros p. unfold feed_keeps. cbn [isUserAdmin]. simpl.
      destruct input as [[t k [a|]]|]; try reflexivity. discriminate.
Qed.

(** *** hide and unhide *)

Lemma post_update_found (i : Z) (data : Post -> Post) (s : Store) (p : Post) :
  post_findUnique i s = Some p ->
  post_update i data s =
    (Ok (data p),
     set_posts (map (fun r => if id r =? i then data r else r) (posts s)) s).
Proof. intros Hf. unfold post_update. now rewrite Hf. Qed.

Lemma hide_admin (ctx : Ctx) (i : Z) (s : Store) (p : Post) (h : bool) :
  isUserAdmin ctx = true -> post_findUnique i s = Some p ->
  (if h then hide ctx i s else unhide ctx i s) =
    (Ok i,
     set_posts (map (fun r => if id r =? i then set_hidden h r else r) (posts s)) s).
Proof.
  intros Hadm Hf. destruct (found_has_id i s p Hf) as [Hid _].
  destruct h; unfold hide, unhide, bind, ret; rewrite Hadm; simpl;
    rewrite (post_update_found i _ s p Hf); simpl; now rewrite Hid.
Qed.

(** X9.  [hide] and [unhide] are for admins only: any other caller, the
    author of the post included, gets [FORBIDDEN] and nothing is written.
    For an admin and an id no post has, the store refuses the update and
    nothing is written either. *)
Theorem hide_needs_an_admin (ctx : Ctx) (i : Z) (s : Store) :
  (isUserAdmin ctx = false ->
   hide ctx i s = (Err (TRPCError FORBIDDEN None), s) /\
   unhide ctx i s = (Err (TRPCError FORBIDDEN None), s)) /\
  (isUserAdmin ctx = true -> post_findUnique i s = None ->
   (exists e, hide ctx i s = (Err e, s)) /\
   (exists e, unhide ctx i s = (Err e, s))).
Proof.
  split.
  - intros Hadm. unfold hide, unhide. now rewrite Hadm.
  - intros Hadm Hf. unfold hide, unhide. rewrite Hadm. simpl.
    unfold bind, post_update. rewrite Hf. split; now eexists.
Qed.

(** X10.  For an admin, [hide] of an existing post returns its id and sets
    its [hidden] flag and nothing else: title, content, [contentHtml],
    author and creation time are as before, and so is every other post. *)
Theorem hide_sets_only_the_flag (ctx : Ctx) (i : Z) (s : Store) (p : Post) :
  isUserAdmin ctx = true -> post_findUnique i s = Some p ->
  exists s',
    hide ctx i s = (Ok i, s') /\
    post_findUnique i s' =
      Some {| id := id p; title := title p; content := content p;
              contentHtml := contentHtml p; createdAt := createdAt p;
              hidden := true; authorId := authorId p |} /\
    (forall j, j <> i -> post_findUnique j s' = post_findUnique j s) /\
    users s' = users s /\ comments s' = comments s /\
    likedPosts s' = likedPosts s.
Proof.
  intros Hadm Hf. rewrite (hide_admin ctx i s p true Hadm Hf).
  eexists. split; [reflexivity|]. repeat split.
  - unfold post_findUnique in *. simpl.
    rewrite find_after_update by reflexivity. now rewrite Hf.
  - intros j Hj. unfold post_findUnique. simpl.
    now apply find_update_other.
Qed.

(** X11.  [hide] followed by [unhide], both by admins, leaves the post
    with [hidden = false] and every other field as before, so a post that
    was visible is again the post it was; every other post is untouched. *)
Theorem hide_then_unhide (ctx ctx' : Ctx) (i : Z) (s : Store) (p : Post) :
  isUserAdmin ctx = true -> isUserAdmin ctx' = true ->
  post_findUnique i s = Some p ->
  post_findUnique i (snd (unhide ctx' i (snd (hide ctx i s)))) =
    Some (set_hidden false p) /\
  (hidden p = false ->
   post_findUnique i (snd (unhide ctx' i (snd (hide ctx i s)))) = Some p) /\
  (forall j, j <> i ->
     post_findUnique j (snd (unhide ctx' i (snd (hide ctx i s)))) =
       post_findUnique j s).
Proof.
  intros Hadm Hadm' Hf.
  rewrite (hide_admin ctx i s p true Hadm Hf). cbn [snd].
  set (s1 := set_posts _ s).
  assert (Hf1 : post_findUnique i s1 = Some (set_hidden true p)).
  { unfold post_findUnique in *. simpl.
    rewrite find_after_update by reflexivity. now rewrite Hf. }
  rewrite (hide_admin ctx' i s1 (set_hidden true p) false Hadm' Hf1). cbn [snd].
  assert (Hf2 : post_findUnique i
                  (set_posts (map (fun r => if id r =? i then set_hidden false r else r)
                                (posts s1)) s1)
                = Some (set_hidden false p)).
  { unfold post_findUnique in *. cbn [posts set_posts].
    rewrite find_after_update by reflexivity. now rewrite Hf1. }
  split; [exact Hf2|]. split.
  - intros Hh. rewrite Hf2. destruct p. simpl in Hh. now subst.
  - intros j Hj. unfold post_findUnique. cbn [posts set_posts].
    rewrite find_update_other by (auto; reflexivity).
    unfold s1. cbn [posts set_posts].
    now apply find_update_other.
Qed.

(** X12.  Once an admin has hidden a post, [detail] refuses it with
    [NOT_FOUND] to every caller who is neither its author nor an admin,
    while its author still gets it, marked hidden. *)
Theorem hidden_post_is_refused (admin ctx : Ctx) (i : Z) (s : Store) (p : Post) :
  isUserAdmin admin = true -> post_findUnique i s = Some p ->
  (isUserAdmin ctx = false -> authorId p <> session_user_id ctx ->
   fst (detail ctx i (snd (hide admin i s))) =
     Err (TRPCError NOT_FOUND (Some (not_found_message i)))) /\
  (authorId p = session_user_id ctx ->
   exists d, fst (detail ctx i (snd (hide admin i s))) = Ok d /\
             detail_hidden d = true /\ detail_id d = i /\
             detail_content d = content p).
Proof.
  intros Hadm Hf. destruct (found_has_id i s p Hf) as [Hid _].
  rewrite (hide_admin admin i s p true Hadm Hf). cbn [snd].
  set (s1 := set_posts _ s).
  assert (Hf1 : post_findUnique i s1 = Some (set_hidden true p)).
  { unfold post_findUnique in *. simpl.
    rewrite find_after_update by reflexivity. now rewrite Hf. }
  rewrite detail_cases, Hf1. cbn [hidden authorId set_hidden]. split.
  - intros Hna Hne. apply str_eqb_neq in Hne. now rewrite Hne, Hna.
  - intros Ha. rewrite Ha, str_eqb_refl. simpl.
    eexists. split; [reflexivity|]. now repeat split.
Qed.

(** *** delete and edit by the author *)

Lemma belongs_to_author (ctx : Ctx) (p : Post) :
  authorId p = session_user_id ctx -> belongs_to ctx (Some p) = true.
Proof. intros Ha. simpl. rewrite Ha. apply str_eqb_refl. Qed.

(** X13.  [delete] by the author returns the id and removes the post: no
    post has the id afterwards, every other post is still found as before,
    and a second [delete] of the same id by the same caller fails with
    [FORBIDDEN]. *)
Theorem delete_by_author (ctx : Ctx) (i : Z) (s : Store) (p : Post) :
  post_findUnique i s = Some p -> authorId p = session_user_id ctx ->
  exists s',
    delete ctx i s = (Ok i, s') /\
    post_findUnique i s' = None /\
    (forall j, j <> i -> post_findUnique j s' = post_findUnique j s) /\
    delete ctx i s' = (Err (TRPCError FORBIDDEN None), s').
Proof.
  intros Hf Ha.
  assert (Hd : delete ctx i s =
                 (Ok i,
                  {| posts := filter (fun r => negb (id r =? i)) (posts s);
                     users := users s;
                     comments := filter (fun c => negb (comment_postId c =? i)) (comments s);
                     likedPosts := filter (fun l => negb (like_postId l =? i)) (likedPosts s);
                     nextPostId := nextPostId s;
                     clock := clock s |})).
  { unfold delete, bind, gets, post_delete. rewrite Hf.
    rewrite (belongs_to_author ctx p Ha). simpl. now rewrite Hf. }
  rewrite Hd. eexists. split; [reflexivity|].
  assert (Hgone : forall st, posts st = filter (fun r => negb (id r =? i)) (posts s) ->
                             post_findUnique i st = None).
  { intros st Hst. unfold post_findUnique. rewrite Hst. apply find_removed. }
  split; [now apply Hgone|]. split.
  - intros j Hj. unfold post_findUnique. simpl. now apply find_remove_other.
  - unfold delete, bind, gets, throw. rewrite Hgone by reflexivity. reflexivity.
Qed.

(** X14.  [edit] by the author changes the title, the content and
    [contentHtml] of the post and nothing else: its id, author, creation
    time and [hidden] flag are as before, and every other post is still
    found as before. *)
Theorem edit_keeps_the_rest (ctx : Ctx) (i : Z) (data : EditData) (s : Store)
    (p : Post) :
  data_title data <> [] -> data_content data <> [] ->
  post_findUnique i s = Some p -> authorId p = session_user_id ctx ->
  exists p' s',
    edit ctx i data s = (Ok p', s') /\
    post_findUnique i s' = Some p' /\
    (id p' = i /\ authorId p' = authorId p /\ createdAt p' = createdAt p /\
     hidden p' = hidden p) /\
    (forall j, j <> i -> post_findUnique j s' = post_findUnique j s) /\
    users s' = users s /\ comments s' = comments s /\
    likedPosts s' = likedPosts s.
Proof.
  intros Ht Hc Hf Ha. destruct (found_has_id i s p Hf) as [Hid _].
  rewrite (edit_cases ctx i data s p Ht Hc Hf Ha). cbv zeta.
  eexists. eexists. split; [reflexivity|]. repeat split.
  - unfold post_findUnique in *. simpl.
    rewrite find_after_update by reflexivity. now rewrite Hf.
  - exact Hid.
  - intros j Hj. unfold post_findUnique. simpl.
    now apply find_update_other.
Qed.

(** *** like and unlike *)

Lemma set_likedPosts_same (s : Store) : set_likedPosts (likedPosts s) s = s.
Proof. now destruct s. Qed.

Lemma filter_all {A} (f : A -> bool) (l : list A) :
  existsb (fun x => negb (f x)) l = false -> filter f l = l.
Proof.
  induction l as [|x l IH]; simpl; [reflexivity|].
  intros He. apply orb_false_iff in He. destruct He as [Hx Hl].
  apply negb_false_iff in Hx. now rewrite Hx, IH.
Qed.

Lemma like_first (ctx : Ctx) (i : Z) (s : Store) (p : Post) :
  post_findUnique i s = Some p ->
  existsb (is_like i (session_user_id ctx)) (likedPosts s) = false ->
  like ctx i s =
    (Ok i,
     set_likedPosts
       (likedPosts s ++ [{| like_postId := i; like_userId := session_user_id ctx;
                            like_createdAt := clock s |}]) s).
Proof.
  intros Hf Hn. unfold like, bind, likedPosts_create. now rewrite Hf, Hn.
Qed.

Lemma is_like_self (i : Z) (u : UserId) (t : Z) :
  is_like i u {| like_postId := i; like_userId := u; like_createdAt := t |} = true.
Proof. unfold is_like. simpl. now rewrite Z.eqb_refl, str_eqb_refl. Qed.

(** X15.  A user likes a post at most once: after a first [like] of an
    existing post has succeeded, a second [like] of it by the same user
    fails and leaves the store as the first left it. *)
Theorem like_twice_fails (ctx : Ctx) (i : Z) (s : Store) (p : Post) :
  post_findUnique i s = Some p ->
  existsb (is_like i (session_user_id ctx)) (likedPosts s) = false ->
  exists s1 e,
    like ctx i s = (Ok i, s1) /\
    like ctx i s1 = (Err e, s1).
Proof.
  intros Hf Hn. rewrite (like_first ctx i s p Hf Hn).
  eexists. exists (PrismaError P2002). split; [reflexivity|].
  unfold like, bind, likedPosts_create.
  replace (post_findUnique i (set_likedPosts _ s)) with (Some p) by (symmetry; exact Hf).
  cbn [likedPosts set_likedPosts].
  rewrite existsb_app. cbn [existsb]. rewrite is_like_self.
  now rewrite orb_true_r.
Qed.

(** X16.  [unlike] undoes [like]: when the caller had not liked the post,
    [like] followed by [unlike] gives back the store as it was.  With no
    like to remove, [unlike] fails and writes nothing. *)
Theorem like_then_unlike (ctx : Ctx) (i : Z) (s : Store) :
  existsb (is_like i (session_user_id ctx)) (likedPosts s) = false ->
  (forall p, post_findUnique i s = Some p ->
     unlike ctx i (snd (like ctx i s)) = (Ok i, s)) /\
  (exists e, unlike ctx i s = (Err e, s)).
Proof.
  intros Hn. split.
  - intros p Hf. rewrite (like_first ctx i s p Hf Hn). cbn [snd].
    unfold unlike, bind, likedPosts_delete. cbn [likedPosts set_likedPosts].
    rewrite existsb_app. cbn [existsb]. rewrite is_like_self, orb_true_r.
    cbn [ret]. rewrite filter_app. cbn [filter]. rewrite is_like_self.
    cbn [negb]. rewrite app_nil_r.
    rewrite filter_all.
    + unfold ret. f_equal. now destruct s.
    + rewrite <- Hn. clear. induction (likedPosts s) as [|x l IH]; simpl;
        [reflexivity|]. now rewrite negb_involutive, IH.
  - unfold unlike, bind, likedPosts_delete. rewrite Hn. now eexists.
Qed.

(** X17.  A like shows in the post's detail: after [like] of a visible
    post the caller had not liked, [detail] lists the caller among the
    likers, and lists one liker more than there were. *)
Theorem like_shows_in_detail (ctx : Ctx) (i : Z) (s : Store) (p : Post) :
  post_findUnique i s = Some p -> hidden p = false ->
  existsb (is_like i (session_user_id ctx)) (likedPosts s) = false ->
  exists d,
    fst (detail ctx i (snd (like ctx i s))) = Ok d /\
    In (session_user_id ctx) (map liker_id (detail_likedBy d)) /\
    length (detail_likedBy d) = S (length (select_likedBy i s)).
Proof.
  intros Hf Hh Hn. rewrite (like_first ctx i s p Hf Hn). cbn [snd].
  set (l := {| like_postId := i; like_userId := session_user_id ctx;
               like_createdAt := clock s |}).
  rewrite detail_cases.
  replace (post_findUnique i (set_likedPosts (likedPosts s ++ [l]) s))
    with (Some p) by (symmetry; exact Hf).
  rewrite Hh. simpl andb. cbv iota.
  eexists. split; [reflexivity|].
  destruct (found_has_id i s p Hf) as [Hid _].
  cbn [detail_likedBy select_detail]. rewrite Hid.
  unfold select_likedBy. cbn [likedPosts set_likedPosts].
  rewrite filter_app. cbn [filter like_postId l]. rewrite Z.eqb_refl.
  split.
  - rewrite map_map. apply in_map_iff. exists l. split; [reflexivity|].
    eapply Permutation_in; [symmetry; apply sort_by_perm|].
    apply in_or_app. right. now left.
  - rewrite !length_map.
    rewrite !(Permutation_length (sort_by_perm _ _)).
    rewrite length_app. simpl. lia.
Qed.

(** *** What no call does *)

Lemma find_snoc (i : Z) (l : list Post) (x : Post) :
  find (fun p => id p =? i) (l ++ [x]) =
    match find (fun p => id p =? i) l with
    | Some y => Some y
    | None => if id x =? i then Some x else None
    end.
Proof.
  induction l as [|y l IH]; simpl; [reflexivity|].
  now destruct (id y =? i).
Qed.

Lemma posts_after_call (ctx : Ctx) (call : Call) (s : Store) :
  posts (store_after ctx call s) = posts s \/
  (exists t c,
     posts (store_after ctx call s) =
       posts s ++ [{| id := nextPostId s; title := t; content := c;
                      contentHtml := markdownToHtml c; createdAt := clock s;
                      hidden := false; authorId := session_user_id ctx |}]) \/
  (exists i t c p0,
     post_findUnique i s = Some p0 /\ authorId p0 = session_user_id ctx /\
     posts (store_after ctx call s) =
       map (fun r => if id r =? i
                     then {| id := id r; title := t; content := c;
                             contentHtml := markdownToHtml c;
                             createdAt := createdAt r; hidden := hidden r;
                             authorId := authorId r |}
                     else r) (posts s)) \/
  (exists i p0,
     post_findUnique i s = Some p0 /\ authorId p0 = session_user_id ctx /\
     posts (store_after ctx call s) =
       filter (fun r => negb (id r =? i)) (posts s)) \/
  (exists i h,
     isUserAdmin ctx = true /\
     posts (store_after ctx call s) =
       map (fun r => if id r =? i then set_hidden h r else r) (posts s)).
Proof.
  destruct call as [input|i|q|t c|i d|i|i|i|i|i]; simpl.
  - left. unfold feed. now destruct (negb (feed_input_ok input)).
  - left. rewrite detail_cases. destruct (post_findUnique i s) as [p|]; [|reflexivity].
    now destruct (_ && _).
  - left. unfold search. now destruct (length q <? 1)%nat.
  - unfold add. destruct (_ || _); [now left|].
    right. left. exists t, c.
    unfold bind, post_create, await_slack. simpl.
    match goal with
    | |- context [@postToSlackIfEnabled ?k ?p ?n] =>
        now destruct (@postToSlackIfEnabled k p n)
    end.
  - unfold edit. destruct (_ || _); [now left|].
    unfold bind, gets, throw. simpl.
    destruct (post_findUnique i s) as [p0|] eqn:Hf; simpl; [|now left].
    destruct (str_eqb (authorId p0) (session_user_id ctx)) eqn:Ha; simpl; [|now left].
    apply str_eqb_eq in Ha.
    right. right. left. exists i, (data_title d), (data_content d), p0.
    split; [exact Hf|]. split; [assumption|].
    unfold post_update. now rewrite Hf.
  - unfold delete, bind, gets, throw. simpl.
    destruct (post_findUnique i s) as [p0|] eqn:Hf; simpl; [|now left].
    destruct (str_eqb (authorId p0) (session_user_id ctx)) eqn:Ha; simpl; [|now left].
    apply str_eqb_eq in Ha.
    right. right. right. left. exists i, p0.
    split; [exact Hf|]. split; [assumption|].
    unfold post_delete. now rewrite Hf.
  - left. unfold like, bind, likedPosts_create.
    destruct (post_findUnique i s); [|reflexivity].
    now destruct (existsb _ _).
  - left. unfold unlike, bind, likedPosts_delete. now destruct (existsb _ _).
  - unfold hide. destruct (isUserAdmin ctx) eqn:Hadm; simpl; [|now left].
    unfold bind, post_update. destruct (post_findUnique i s); [|now left].
    right. right. right. right. now exists i, true.
  - unfold unhide. destruct (isUserAdmin ctx) eqn:Hadm; simpl; [|now left].
    unfold bind, post_update. destruct (post_findUnique i s); [|now left].
    right. right. right. right. now exists i, false.
Qed.

(** The post found under an id after a call, against the one found
    before: the same; or, for an id nothing was found under, the post [add]
    created; or the caller's own post as [edit] rewrote it; or nothing, the
    caller having deleted their own post; or the post with the flag an
    admin set. *)
Lemma lookup_after_call (ctx : Ctx) (call : Call) (s : Store) (i : Z) :
  post_findUnique i (store_after ctx call s) = post_findUnique i s \/
  (post_findUnique i s = None /\ i = nextPostId s /\
   exists t c,
     post_findUnique i (store_after ctx call s) =
       Some {| id := nextPostId s; title := t; content := c;
               contentHtml := markdownToHtml c; createdAt := clock s;
               hidden := false; authorId := session_user_id ctx |}) \/
  (exists p t c,
     post_findUnique i s = Some p /\ authorId p = session_user_id ctx /\
     post_findUnique i (store_after ctx call s) =
       Some {| id := id p; title := t; content := c;
               contentHtml := markdownToHtml c; createdAt := createdAt p;
               hidden := hidden p; authorId := authorId p |}) \/
  (exists p,
     post_findUnique i s = Some p /\ authorId p = session_user_id ctx /\
     post_findUnique i (store_after ctx call s) = None) \/
  (exists p h,
     post_findUnique i s = Some p /\ isUserAdmin ctx = true /\
     post_findUnique i (store_after ctx call s) = Some (set_hidden h p)).
Proof.
  set (after := store_after ctx call s).
  destruct (posts_after_call ctx call s)
    as [He|[(t & c & He)|[(j & t & c & p0 & Hf & Ha & He)
       |[(j & p0 & Hf & Ha & He)|(j & h & Hadm & He)]]]];
    fold after in He;
    (assert (Hl : post_findUnique i after = find (fun p => id p =? i) (posts after))
       by reflexivity);
    rewrite He in Hl; rewrite Hl; clear Hl.
  - now left.
  - rewrite find_snoc. fold (post_findUnique i s).
    destruct (post_findUnique i s) as [p|] eqn:Hp; [now left|].
    cbn [id]. destruct (nextPostId s =? i) eqn:Hn; [|now left].
    apply Z.eqb_eq in Hn. right. left.
    split; [reflexivity|]. split; [now symmetry|]. now exists t, c.
  - destruct (Z.eq_dec i j) as [->|Hij].
    + right. right. left. exists p0, t, c.
      split; [exact Hf|]. split; [exact Ha|].
      rewrite find_after_update by reflexivity.
      fold (post_findUnique j s). now rewrite Hf.
    + left. now apply find_update_other.
  - destruct (Z.eq_dec i j) as [->|Hij].
    + right. right. right. left. exists p0.
      split; [exact Hf|]. split; [exact Ha|]. apply find_removed.
    + left. now apply find_remove_other.
  - destruct (Z.eq_dec i j) as [->|Hij].
    + rewrite find_after_update by reflexivity.
      fold (post_findUnique j s).
      destruct (post_findUnique j s) as [p|] eqn:Hp; [|now left].
      right. right. right. right. now exists p, h.
    + left. apply find_update_other; auto.
Qed.

(** X18.  No call transfers a post or changes its creation time: a post
    found under an id before and after a call has the same id, author and
    creation time.  A post found after a call under an id that nothing was
    found under before was created by this call: it is owned by the caller,
    stamped with the store's time and not hidden. *)
Theorem ownership_never_transfers (ctx : Ctx) (call : Call) (s : Store) (i : Z) :
  (forall p q,
     post_findUnique i s = Some p ->
     post_findUnique i (store_after ctx call s) = Some q ->
     id q = id p /\ authorId q = authorId p /\ createdAt q = createdAt p) /\
  (forall q,
     post_findUnique i s = None ->
     post_findUnique i (store_after ctx call s) = Some q ->
     id q = i /\ authorId q = session_user_id ctx /\
     createdAt q = clock s /\ hidden q = false).
Proof.
  destruct (lookup_after_call ctx call s i)
    as [He|[(Hn & Hi & t & c & He)|[(p0 & t & c & Hf & _ & He)
       |[(p0 & Hf & _ & He)|(p0 & h & Hf & _ & He)]]]];
    rewrite He; split.
  - intros p q Hp Hq. rewrite Hp in Hq. injection Hq as <-. auto.
  - intros q Hp Hq. congruence.
  - intros p q Hp. congruence.
  - intros q _ Hq. injection Hq as <-. simpl. auto.
  - intros p q Hp Hq. rewrite Hf in Hp. injection Hp as <-.
    injection Hq as <-. simpl. auto.
  - intros q Hp. congruence.
  - intros p q _ Hq. discriminate.
  - intros q _ Hq. discriminate.
  - intros p q Hp Hq. rewrite Hf in Hp. injection Hp as <-.
    injection Hq as <-. simpl. auto.
  - intros q Hp. congruence.
Qed.

(** X19.  A caller who is not an admin cannot change a [hidden] flag: the
    post found under an id after any call of theirs has the flag that the
    post found under that id had before. *)
Theorem only_admins_change_hidden (ctx : Ctx) (call : Call) (s : Store) (i : Z)
    (p q : Post) :
  isUserAdmin ctx = false ->
  post_findUnique i s = Some p ->
  post_findUnique i (store_after ctx call s) = Some q ->
  hidden q = hidden p.
Proof.
  intros Hna Hp Hq.
  destruct (lookup_after_call ctx call s i)
    as [He|[(Hn & _)|[(p0 & t & c & Hf & _ & He)
       |[(p0 & Hf & _ & He)|(p0 & h & Hf & Hadm & He)]]]];
    try congruence.
  rewrite He in Hq. injection Hq as <-. rewrite Hf in Hp. now injection Hp as <-.
Qed.

(** X20.  No call removes or rewrites what someone else wrote: a post that
    is not owned by the caller is still found after any call, with the id,
    author, creation time, title, content and [contentHtml] it had; when the
    caller is no admin either, it is found exactly as it was. *)
Theorem others_content_is_untouched (ctx : Ctx) (call : Call) (s : Store) (i : Z)
    (p : Post) :
  post_findUnique i s = Some p ->
  authorId p <> session_user_id ctx ->
  exists q,
    post_findUnique i (store_after ctx call s) = Some q /\
    id q = id p /\ authorId q = authorId p /\ createdAt q = createdAt p /\
    title q = title p /\ content q = content p /\
    contentHtml q = contentHtml p /\
    (isUserAdmin ctx = false -> q = p).
Proof.
  intros Hp Hother.
  destruct (lookup_after_call ctx call s i)
    as [He|[(Hn & _)|[(p0 & t & c & Hf & Ha & He)
       |[(p0 & Hf & Ha & He)|(p0 & h & Hf & Hadm & He)]]]];
    try congruence.
  - exists p. rewrite He. repeat split; auto.
  - rewrite Hf in Hp. injection Hp as <-.
    exists (set_hidden h p0). rewrite He. repeat split; auto. congruence.
Qed.

End RouterExtras.

(** ** The further properties on sample stores *)

(** X6 for a page of one post out of the two that bob may see. *)
Lemma feed_page_is_bounded_sample :
  exists r,
    @feed substring_search_working_slack (ctx_of bob false)
      (Some {| take := Some 1; skip := None; feed_authorId := None |})
      three_posts = (Ok r, three_posts) /\
    (length (feed_posts r) <= 1)%nat /\
    Z.of_nat (length (feed_posts r)) <= postCount r.
Proof.
  destruct (@feed_page_is_bounded substring_search_working_slack
              (ctx_of bob false)
              (Some {| take := Some 1; skip := None; feed_authorId := None |})
              three_posts eq_refl)
    as (r & Heq & [Hlen _] & Hcount).
  exists r. repeat split; assumption.
Defined.

(** X7: a [take] of 0 and an empty title are refused. *)
Lemma rejected_input_writes_nothing_sample :
  (exists e,
     @feed substring_search_working_slack (ctx_of bob false)
       (Some {| take := Some 0; skip := None; feed_authorId := None |})
       three_posts = (Err e, three_posts)) /\
  (exists e,
     @add plain_markdown substring_search_working_slack (ctx_of bob false)
       [] (lit "hello") three_posts = (Err e, three_posts)).
Proof.
  destruct (@rejected_input_writes_nothing plain_markdown
              substring_search_working_slack (ctx_of bob false) three_posts)
    as (Htake & _ & _ & Hadd & _).
  split.
  - apply Htake. lia.
  - apply Hadd. now left.
Defined.

(** X8: an admin counts all three posts, bob counts no more. *)
Lemma feed_admin_counts_all_sample :
  exists r_admin r_other,
    fst (@feed substring_search_working_slack (ctx_of bob true) None three_posts)
      = Ok r_admin /\
    fst (@feed substring_search_working_slack (ctx_of bob false) None three_posts)
      = Ok r_other /\
    postCount r_other <= postCount r_admin /\
    postCount r_admin = 3.
Proof.
  destruct (@feed_admin_counts_all substring_search_working_slack
              bob (Some bob) None three_posts eq_refl)
    as (ra & ro & Ha & Ho & Hle & Hall).
  exists ra, ro. repeat split; try assumption.
  rewrite Hall; [reflexivity|exact I].
Defined.

(** X9: alice, who is no admin, may not hide her own post. *)
Lemma hide_needs_an_admin_sample :
  hide (ctx_of alice false) 1 three_posts =
    (Err (TRPCError FORBIDDEN None), three_posts) /\
  exists e, hide (ctx_of bob true) 7 three_posts = (Err e, three_posts).
Proof.
  destruct (hide_needs_an_admin (ctx_of alice false) 1 three_posts) as [Hno _].
  destruct (hide_needs_an_admin (ctx_of bob true) 7 three_posts) as [_ Hmiss].
  split.
  - now apply Hno.
  - now apply Hmiss.
Defined.

(** X10: an admin hides post 1. *)
Lemma hide_sets_only_the_flag_sample :
  exists s',
    hide (ctx_of bob true) 1 three_posts = (Ok 1, s') /\
    post_findUnique 1 s' = Some (sample_post 1 "first" 10 true alice) /\
    post_findUnique 3 s' = Some (sample_post 3 "third" 30 false bob).
Proof.
  destruct (hide_sets_only_the_flag (ctx_of bob true) 1 three_posts
              (sample_post 1 "first" 10 false alice) eq_refl eq_refl)
    as (s' & Hh & Hf & Hother & _).
  exists s'. split; [exact Hh|]. split; [exact Hf|].
  rewrite Hother by discriminate. reflexivity.
Defined.

(** X11: post 1, hidden and shown again, is the post it was. *)
Lemma hide_then_unhide_sample :
  post_findUnique 1
    (snd (unhide (ctx_of bob true) 1 (snd (hide (ctx_of bob true) 1 three_posts))))
  = Some (sample_post 1 "first" 10 false alice).
Proof.
  destruct (hide_then_unhide (ctx_of bob true) (ctx_of bob true) 1 three_posts
              (sample_post 1 "first" 10 false alice) eq_refl eq_refl eq_refl)
    as (_ & Hsame & _).
  now apply Hsame.
Defined.

(** X12: once post 3 of bob is hidden, alice is refused and bob is not. *)
Lemma hidden_post_is_refused_sample :
  fst (detail (ctx_of alice false) 3 (snd (hide (ctx_of alice true) 3 three_posts)))
    = Err (TRPCError NOT_FOUND (Some (lit "No post with id '3'"))) /\
  exists d,
    fst (detail (ctx_of bob false) 3 (snd (hide (ctx_of alice true) 3 three_posts)))
      = Ok d /\ detail_hidden d = true.
Proof.
  destruct (hidden_post_is_refused (ctx_of alice true) (ctx_of alice false) 3
              three_posts (sample_post 3 "third" 30 false bob) eq_refl eq_refl)
    as [Hno _].
  destruct (hidden_post_is_refused (ctx_of alice true) (ctx_of bob false) 3
              three_posts (sample_post 3 "third" 30 false bob) eq_refl eq_refl)
    as [_ Hyes].
  split.
  - apply Hno; [reflexivity|discriminate].
  - destruct (Hyes eq_refl) as (d & Hd & Hh & _). now exists d.
Defined.

(** X13: bob deletes his post 3, once. *)
Lemma delete_by_author_sample :
  exists s',
    delete (ctx_of bob false) 3 three_posts = (Ok 3, s') /\
    post_findUnique 3 s' = None /\
    post_findUnique 1 s' = Some (sample_post 1 "first" 10 false alice) /\
    delete (ctx_of bob false) 3 s' = (Err (TRPCError FORBIDDEN None), s').
Proof.
  destruct (delete_by_author (ctx_of bob false) 3 three_posts
              (sample_post 3 "third" 30 false bob) eq_refl eq_refl)
    as (s' & Hd & Hgone & Hother & Hagain).
  exists s'. repeat split; try assumption.
  rewrite Hother by discriminate. reflexivity.
Defined.

(** X14: alice edits her hidden post 2, which stays hidden. *)
Lemma edit_keeps_the_rest_sample :
  exists p' s',
    @edit plain_markdown (ctx_of alice false) 2
      {| data_title := lit "new"; data_content := lit "text" |} three_posts
      = (Ok p', s') /\
    hidden p' = true /\ authorId p' = alice /\ createdAt p' = 20.
Proof.
  destruct (@edit_keeps_the_rest plain_markdown (ctx_of alice false) 2
              {| data_title := lit "new"; data_content := lit "text" |}
              three_posts (sample_post 2 "second" 20 true alice))
    as (p' & s' & He & _ & (_ & Ha & Hc & Hh) & _);
    try discriminate; try reflexivity.
  exists p', s'. split; [exact He|].
  rewrite Hh, Ha, Hc. now repeat split.
Defined.

(** X15: bob likes post 1 twice. *)
Lemma like_twice_fails_sample :
  exists s1 e,
    like (ctx_of bob false) 1 three_posts = (Ok 1, s1) /\
    like (ctx_of bob false) 1 s1 = (Err e, s1).
Proof.
  exact (like_twice_fails (ctx_of bob false) 1 three_posts
           (sample_post 1 "first" 10 false alice) eq_refl eq_refl).
Defined.

(** X16: bob likes post 1 and takes the like back. *)
Lemma like_then_unlike_sample :
  unlike (ctx_of bob false) 1 (snd (like (ctx_of bob false) 1 three_posts))
    = (Ok 1, three_posts) /\
  exists e, unlike (ctx_of bob false) 1 three_posts = (Err e, three_posts).
Proof.
  destruct (like_then_unlike (ctx_of bob false) 1 three_posts eq_refl)
    as [Hround Hnone].
  split; [|exact Hnone].
  now apply (Hround (sample_post 1 "first" 10 false alice)).
Defined.

(** X17: bob's like of post 1 shows in its detail. *)
Lemma like_shows_in_detail_sample :
  exists d,
    fst (detail (ctx_of bob false) 1 (snd (like (ctx_of bob false) 1 three_posts)))
      = Ok d /\
    In bob (map liker_id (detail_likedBy d)) /\
    length (detail_likedBy d) = 1%nat.
Proof.
  exact (like_shows_in_detail (ctx_of bob false) 1 three_posts
           (sample_post 1 "first" 10 false alice) eq_refl eq_refl eq_refl).
Defined.

(** X18: after bob's [add], post 1 is found as alice's post of time 10,
    and the post found under the id 100, which was free, is bob's. *)
Lemma ownership_never_transfers_sample :
  (exists q,
     post_findUnique 1
       (@store_after plain_markdown substring_search_working_slack
          (ctx_of bob false) (CallAdd (lit "T") (lit "hello")) three_posts)
       = Some q /\
     authorId q = alice /\ createdAt q = 10) /\
  (exists q,
     post_findUnique 100
       (@store_after plain_markdown substring_search_working_slack
          (ctx_of bob false) (CallAdd (lit "T") (lit "hello")) three_posts)
       = Some q /\
     authorId q = bob /\ hidden q = false).
Proof.
  split.
  - destruct (@ownership_never_transfers plain_markdown
                substring_search_working_slack (ctx_of bob false)
                (CallAdd (lit "T") (lit "hello")) three_posts 1) as [Hold _].
    eexists. split; [reflexivity|].
    destruct (Hold (sample_post 1 "first" 10 false alice) _ eq_refl eq_refl)
      as (_ & Ha & Hc).
    split; [exact Ha|exact Hc].
  - destruct (@ownership_never_transfers plain_markdown
                substring_search_working_slack (ctx_of bob false)
                (CallAdd (lit "T") (lit "hello")) three_posts 100) as [_ Hnew].
    eexists. split; [reflexivity|].
    destruct (Hnew _ eq_refl eq_refl) as (_ & Ha & _ & Hh).
    split; [exact Ha|exact Hh].
Defined.

(** X19: alice, who is no admin, edits her hidden post 2; it stays hidden. *)
Lemma only_admins_change_hidden_sample :
  exists q,
    post_findUnique 2
      (@store_after plain_markdown substring_search_working_slack
         (ctx_of alice false)
         (CallEdit 2 {| data_title := lit "new"; data_content := lit "text" |})
         three_posts) = Some q /\
    title q = lit "new" /\ hidden q = true.
Proof.
  eexists. split; [reflexivity|]. split; [reflexivity|].
  apply (@only_admins_change_hidden plain_markdown substring_search_working_slack
           (ctx_of alice false)
           (CallEdit 2 {| data_title := lit "new"; data_content := lit "text" |})
           three_posts 2 (sample_post 2 "second" 20 true alice));
    reflexivity.
Defined.

(** X20: bob, who is no admin, tries to edit and to delete alice's post 1;
    it is found as it was. *)
Lemma others_content_is_untouched_sample :
  post_findUnique 1
    (@store_after plain_markdown substring_search_working_slack
       (ctx_of bob false)
       (CallEdit 1 {| data_title := lit "new"; data_content := lit "text" |})
       three_posts) = Some (sample_post 1 "first" 10 false alice) /\
  post_findUnique 1
    (@store_after plain_markdown substring_search_working_slack
       (ctx_of bob false) (CallDelete 1) three_posts)
    = Some (sample_post 1 "first" 10 false alice).
Proof.
  split.
  - destruct (@others_content_is_untouched plain_markdown
                substring_search_working_slack (ctx_of bob false)
                (CallEdit 1 {| data_title := lit "new"; data_content := lit "text" |})
                three_posts 1 (sample_post 1 "first" 10 false alice))
      as (q & Hq & _ & _ & _ & _ & _ & _ & Hsame);
      [reflexivity|discriminate|].
    rewrite Hq. f_equal. now apply Hsame.
  - destruct (@others_content_is_untouched plain_markdown
                substring_search_working_slack (ctx_of bob false)
                (CallDelete 1) three_posts 1 (sample_post 1 "first" 10 false alice))
      as (q & Hq & _ & _ & _ & _ & _ & _ & Hsame);
      [reflexivity|discriminate|].
    rewrite Hq. f_equal. now apply Hsame.
Defined.
